(** * @poppinss/defer: the in-memory defer queue

    A shallow embedding of [src/queue.ts] (classes [Deferred] and
    [DeferQueue]) and [src/types.ts], with the properties of the queue
    engine stated over it.

    Conventions of the embedding.

    - A method of [DeferQueue] is a function on the state [DeferQueue.t]:
      the fields of the object, the [Deferred] objects it allocated, and
      the chronological [trace] of the calls the engine made (hooks,
      [resolve] on a notifier, the worker invoking a task, ...).
    - The only asynchronous points of the source are the [await] in the
      worker and the promises handed out by [createNotifier].  A task is
      in flight between the moment the worker invokes it and the moment
      the awaited operation settles; that moment is the step
      [DeferQueue.settle].
    - Hooks are caller code.  They are identified by a reference and a
      call to a hook is recorded in the trace; a hook returns normally
      (what a throwing hook does to the engine is outside its contract).
    - The executor ([fastq]) is a dependency whose code is not part of
      the sources; [Module Fastq] models the contract the engine relies
      on. *)

From Stdlib Require Import ZArith Lia.
From stdpp Require Import base option list strings.

Set Warnings "-register-all".

(** ** JavaScript values

    The fragment of JavaScript values that travels through the queue:
    what a task returns, what it throws, and what the hooks receive.
    Numbers are integers and [NaN]; all the queue ever does with a value
    is test it ([if (error)]) and pass it on. *)
Module Js.

Inductive value : Type :=
| undefined
| null
| boolean (b : bool)
| number (n : Z)
| NaN
| str (s : string)
| Error (message : string)
| object (props : list (string * value)).

(** [ToBoolean]: the test performed by [if (error)]. *)
Definition truthy (v : value) : bool :=
  match v with
  | undefined | null | NaN => false
  | boolean b => b
  | number n => negb (n =? 0)%Z
  | str s => negb (String.eqb s "")
  | Error _ | object _ => true
  end.

End Js.

(** References to caller-supplied functions (hooks) and to [Deferred]
    objects, and the reference callers hold to the queue object. *)
Definition FnRef := nat.
Definition DeferredRef := nat.
Definition QueueRef := nat.

(** ** src/types.ts *)

(** What calling a task's operation and awaiting the result leads to:
    [cb()] (or [cb.run()]) returns a value or a promise fulfilled with
    it, throws, or returns a promise that rejects.  (A promise that never
    settles is a task for which the step [DeferQueue.settle] never
    happens.) *)
Inductive Operation : Type :=
| Returns (response : Js.value)
| Throws (error : Js.value)
| Rejects (reason : Js.value).

(** [QueueOptions]; the constructor takes a [Partial<QueueOptions>]. *)
Record QueueOptions := { concurrency : option nat }.

(** [DeferCallback]: a function ([() => any], with the [name] property
    every function has) or an object with a [name] and a [run] method. *)
Inductive DeferCallback : Type :=
| Callback (name : string) (call : Operation)
| Task (name : string) (run : Operation).

(** [typeof cb] *)
Definition typeof (cb : DeferCallback) : string :=
  match cb with
  | Callback _ _ => "function"
  | Task _ _ => "object"
  end.

(** [cb.name] *)
Definition name_of (cb : DeferCallback) : string :=
  match cb with
  | Callback name _ => name
  | Task name _ => name
  end.

(** The two call expressions of the worker: [cb()] and [cb.run()]. *)
Inductive Invocation : Type :=
| CallItself (cb : DeferCallback)
| CallRun (cb : DeferCallback).

Definition operation_of (i : Invocation) : Operation :=
  match i with
  | CallItself (Callback _ call) => call
  | CallItself (Task _ _) => Throws (Js.Error "cb is not a function")
  | CallRun (Task _ run) => run
  | CallRun (Callback _ _) => Throws (Js.Error "cb.run is not a function")
  end.

(** [try { await ... } catch (error) { ... }]: the value on the normal
    path, or the caught error. *)
Definition await (o : Operation) : Js.value + Js.value :=
  match o with
  | Returns response => inl response
  | Throws error => inr error
  | Rejects reason => inr reason
  end.

(** ** Results handed to hooks and notifiers *)

(** [{ name: string; response: any }]; the record built on the failure
    path, [{ name: cb.name }], has no [response] property. *)
Module TaskResult.
Record t := make { name : string; response : option Js.value }.
End TaskResult.

(** [PromiseSettledResult<{ name: string; response: any }>] *)
Inductive PromiseSettledResult : Type :=
| fulfilled (value : TaskResult.t)      (* { status: 'fulfilled', value } *)
| rejected (reason : Js.value).         (* { status: 'rejected', reason } *)

Definition status (r : PromiseSettledResult) : string :=
  match r with
  | fulfilled _ => "fulfilled"
  | rejected _ => "rejected"
  end.

(** ** class Deferred

    A promise that is settled from outside through [resolve] and
    [reject].  Settling a promise that is already settled does nothing. *)
Module Deferred.

Inductive t : Type :=
| Pending
| Resolved (value : PromiseSettledResult)
| Rejected (reason : Js.value).

(** The [Deferred] objects allocated so far, by reference. *)
Abbreviation heap := (list t).

(** [new Deferred()] *)
Definition new (h : heap) : DeferredRef * heap := (length h, h ++ [Pending]).

(** [deferred.resolve(value)] *)
Definition resolve (d : DeferredRef) (value : PromiseSettledResult) (h : heap) : heap :=
  match h !! d with
  | Some Pending => <[d := Resolved value]> h
  | _ => h
  end.

(** [deferred.reject(reason)] *)
Definition reject (d : DeferredRef) (reason : Js.value) (h : heap) : heap :=
  match h !! d with
  | Some Pending => <[d := Rejected reason]> h
  | _ => h
  end.

End Deferred.

(** ** The bounded executor *)
Module Fastq.

(** Modelled from the spec: the executor's settable [drain] callback
    slot (the [fastq] package is a dependency, its code is not in the
    sources).  The slot holds a no-op until a callback is assigned. *)
Inductive drainFn : Type :=
| noop
| fn (f : FnRef).

(** Modelled from the spec: the state of the bounded executor, absent
    from the sources: the pending order [tasks], the tasks being run,
    the pause flag, the concurrency ceiling and the drain slot. *)
Record queue (T : Type) := mk {
  tasks : list T;
  running : list T;
  paused : bool;
  concurrency : nat;
  drain : drainFn;
}.
Arguments mk {T}.
Arguments tasks {T}.
Arguments running {T}.
Arguments paused {T}.
Arguments concurrency {T}.
Arguments drain {T}.

(** Modelled from the spec: what the absent executor calls back into:
    the per-task worker function ([Work]) and the drain callback
    ([Drain]); [Flush] records the pending tasks a kill discards. *)
Inductive effect (T : Type) : Type :=
| Work (task : T)
| Drain (f : drainFn)
| Flush (discarded : list T).
Arguments Work {T}.
Arguments Drain {T}.
Arguments Flush {T}.

Section Executor.
Context {T : Type}.

(** Modelled from the spec: [fastq(worker, concurrency)] of the
    absent executor: nothing pending, nothing running, not paused,
    drain slot set to the no-op. *)
Definition create (concurrency : nat) : queue T :=
  mk [] [] false concurrency noop.

(** Modelled from the spec: the scheduling of the absent executor:
    unless paused, pending tasks are started from the front of the
    pending order while fewer than [concurrency] tasks are running. *)
Definition dispatch (q : queue T) : queue T * list (effect T) :=
  if paused q then (q, [])
  else
    let free := concurrency q - length (running q) in
    let started := take free (tasks q) in
    (mk (drop free (tasks q)) (running q ++ started) false (concurrency q) (drain q),
     Work <$> started).

(** Modelled from the spec: [push(task, onSettle)] of the absent
    executor appends the task to the back of the pending order. *)
Definition push (task : T) (q : queue T) : queue T * list (effect T) :=
  dispatch (mk (tasks q ++ [task]) (running q) (paused q) (concurrency q) (drain q)).

(** Modelled from the spec: [unshift(task, onSettle)] of the absent
    executor inserts the task at the front of the pending order. *)
Definition unshift (task : T) (q : queue T) : queue T * list (effect T) :=
  dispatch (mk (task :: tasks q) (running q) (paused q) (concurrency q) (drain q)).

(** Modelled from the spec: [pause()] of the absent executor halts
    the start of new executions; pending tasks stay queued in order. *)
Definition pause (q : queue T) : queue T :=
  mk (tasks q) (running q) true (concurrency q) (drain q).

(** Modelled from the spec: [resume()] of the absent executor
    re-enables execution of pending tasks, subject to the
    concurrency limit. *)
Definition resume (q : queue T) : queue T * list (effect T) :=
  dispatch (mk (tasks q) (running q) false (concurrency q) (drain q)).

(** Modelled from the spec: [idle()] of the absent executor: true
    iff there are no running and no pending tasks. *)
Definition idle (q : queue T) : bool :=
  match running q, tasks q with
  | [], [] => true
  | _, _ => false
  end.

(** Modelled from the spec: [killAndDrain()] of the absent executor
    discards all pending tasks, fires the drain callback once, and
    resets the drain slot to a no-op. *)
Definition killAndDrain (q : queue T) : queue T * list (effect T) :=
  (mk [] (running q) (paused q) (concurrency q) noop,
   [Flush (tasks q); Drain (drain q)]).

(** Modelled from the spec: assignment to the [drain] slot of the
    absent executor. *)
Definition set_drain (f : drainFn) (q : queue T) : queue T :=
  mk (tasks q) (running q) (paused q) (concurrency q) f.

(** Modelled from the spec: what the absent executor does after the
    completion callback of the [i]-th running task returned: the
    slot is freed, pending tasks are started, and the drain callback
    fires if the executor became fully idle. *)
Definition release (i : nat) (q : queue T) : queue T * list (effect T) :=
  let '(q', started) :=
    dispatch (mk (tasks q) (delete i (running q)) (paused q) (concurrency q) (drain q)) in
  (q', started ++ (if idle q' then [Drain (drain q')] else [])).

(** Modelled from the spec: [length()] of the absent executor: the
    number of tasks not yet started. *)
Definition length (q : queue T) : nat := List.length (tasks q).

End Executor.

End Fastq.


(** ** Calls made by the engine

    The trace records, in the order they happen, the calls the engine
    and its worker make: the four hooks, [resolve]/[reject] on a
    notifier, the worker calling a task and calling [done], and the
    pending tasks the executor throws away on a kill. *)
Inductive Event : Type :=
| TaskAdded (hook : FnRef) (task : DeferCallback)
| TaskCompleted (hook : FnRef) (taskResult : TaskResult.t)
| OnError (hook : FnRef) (error : Js.value) (taskResult : TaskResult.t)
| Drained (f : Fastq.drainFn)
| Resolve (d : DeferredRef) (value : PromiseSettledResult)
| Reject (d : DeferredRef) (reason : Js.value)
| Invoke (call : Invocation)
| Done (error : Js.value) (taskResult : TaskResult.t)
| Discard (tasks : list DeferCallback).

(** ** class DeferQueue *)
Module DeferQueue.

(** The object ([this] is the reference callers hold to it, the next six
    fields are those of the class), the [Deferred] objects created by
    [createNotifier], and the trace. *)
Record t := mk {
  this : QueueRef;
  drainCallback : option FnRef;
  fastQueue : Fastq.queue DeferCallback;
  notifiers : list DeferredRef;
  onError : option FnRef;
  taskCompleted : option FnRef;
  taskAdded : option FnRef;
  deferreds : Deferred.heap;
  trace : list Event;
}.

Definition set_drainCallback (v : option FnRef) (q : t) : t :=
  mk (this q) v (fastQueue q) (notifiers q) (onError q) (taskCompleted q)
     (taskAdded q) (deferreds q) (trace q).

Definition set_fastQueue (v : Fastq.queue DeferCallback) (q : t) : t :=
  mk (this q) (drainCallback q) v (notifiers q) (onError q) (taskCompleted q)
     (taskAdded q) (deferreds q) (trace q).

Definition set_notifiers (v : list DeferredRef) (q : t) : t :=
  mk (this q) (drainCallback q) (fastQueue q) v (onError q) (taskCompleted q)
     (taskAdded q) (deferreds q) (trace q).

(** [queue.onError = f] (or leaving it unassigned) *)
Definition set_onError (v : option FnRef) (q : t) : t :=
  mk (this q) (drainCallback q) (fastQueue q) (notifiers q) v (taskCompleted q)
     (taskAdded q) (deferreds q) (trace q).

(** [queue.taskCompleted = f] *)
Definition set_taskCompleted (v : option FnRef) (q : t) : t :=
  mk (this q) (drainCallback q) (fastQueue q) (notifiers q) (onError q) v
     (taskAdded q) (deferreds q) (trace q).

(** [queue.taskAdded = f] *)
Definition set_taskAdded (v : option FnRef) (q : t) : t :=
  mk (this q) (drainCallback q) (fastQueue q) (notifiers q) (onError q)
     (taskCompleted q) v (deferreds q) (trace q).

Definition set_deferreds (v : Deferred.heap) (q : t) : t :=
  mk (this q) (drainCallback q) (fastQueue q) (notifiers q) (onError q)
     (taskCompleted q) (taskAdded q) v (trace q).

(** Append the calls [es] to the trace. *)
Definition log (es : list Event) (q : t) : t :=
  mk (this q) (drainCallback q) (fastQueue q) (notifiers q) (onError q)
     (taskCompleted q) (taskAdded q) (deferreds q) (trace q ++ es).

(** Call a hook if it is assigned: [if (this.hook) { this.hook(...) }]. *)
Definition call_hook (hook : option FnRef) (call : FnRef -> Event) (q : t) : t :=
  match hook with
  | Some f => log [call f] q
  | None => q
  end.

(** [awaitingNotifier.resolve(value)], guarded by [if (awaitingNotifier)]. *)
Definition resolve_notifier (awaitingNotifier : option DeferredRef)
    (value : PromiseSettledResult) (q : t) : t :=
  match awaitingNotifier with
  | Some d => log [Resolve d value] (set_deferreds (Deferred.resolve d value (deferreds q)) q)
  | None => q
  end.

(** [#notifier]: notifies the [onError] and [taskCompleted] handlers and
    the oldest awaiting notifier. *)
Definition notifier (error : Js.value) (taskResult : TaskResult.t) (q : t) : t :=
  let awaitingNotifier := head (notifiers q) in
  let q := set_notifiers (tail (notifiers q)) q in
  if Js.truthy error then
    let q := call_hook (onError q) (fun f => OnError f error taskResult) q in
    resolve_notifier awaitingNotifier (rejected error) q
  else
    let q := call_hook (taskCompleted q) (fun f => TaskCompleted f taskResult) q in
    resolve_notifier awaitingNotifier (fulfilled taskResult) q.

(** [get drained()] *)
Definition drained (q : t) : Fastq.drainFn := Fastq.drain (fastQueue q).

(** [set drained(callback)] *)
Definition set_drained (callback : FnRef) (q : t) : t :=
  let q := set_drainCallback (Some callback) q in
  set_fastQueue (Fastq.set_drain (Fastq.fn callback) (fastQueue q)) q.

(** The call expression the worker evaluates:
    [typeof cb === 'function' ? cb() : cb.run()]. *)
Definition worker_call (cb : DeferCallback) : Invocation :=
  if String.eqb (typeof cb) "function" then CallItself cb else CallRun cb.

(** The worker passed to [fastq] by the constructor, from the [await] on:
    the arguments it gives to [done].  ([done] runs the hooks; as they
    return normally, the [catch] only ever sees what the task threw.) *)
Definition worker (cb : DeferCallback) : Js.value * TaskResult.t :=
  match await (operation_of (worker_call cb)) with
  | inl response => (Js.null, TaskResult.make (name_of cb) (Some response))
  | inr error => (error, TaskResult.make (name_of cb) None)
  end.

(** What the callbacks of the executor amount to in the engine: the
    worker evaluates its call expression, the drain slot is called. *)
Definition effect_event (e : Fastq.effect DeferCallback) : Event :=
  match e with
  | Fastq.Work cb => Invoke (worker_call cb)
  | Fastq.Drain f => Drained f
  | Fastq.Flush cbs => Discard cbs
  end.

Definition perform (effects : list (Fastq.effect DeferCallback)) (q : t) : t :=
  log (effect_event <$> effects) q.

(** Run an operation of the executor on [#fastQueue]. *)
Definition on_fastQueue
    (op : Fastq.queue DeferCallback -> Fastq.queue DeferCallback * list (Fastq.effect DeferCallback))
    (q : t) : t :=
  let '(fq, effects) := op (fastQueue q) in
  perform effects (set_fastQueue fq q).

(** [new DeferQueue(options)]; [self] is the reference of the new object.
    The concurrency is [options?.concurrency ?? 10]. *)
Definition new (self : QueueRef) (options : option QueueOptions) : t :=
  mk self None (Fastq.create (default 10 (options ≫= concurrency))) []
     None None None [] [].

(** [createNotifier()]: returns [deferred.promise]. *)
Definition createNotifier (q : t) : DeferredRef * t :=
  let '(deferred, heap) := Deferred.new (deferreds q) in
  let q := set_deferreds heap q in
  (deferred, set_notifiers (notifiers q ++ [deferred]) q).

(** [push(task)]: returns [this]. *)
Definition push (task : DeferCallback) (q : t) : QueueRef * t :=
  let q := call_hook (taskAdded q) (fun f => TaskAdded f task) q in
  let q := on_fastQueue (Fastq.push task) q in
  (this q, q).

(** [unshift(task)]: returns [this]. *)
Definition unshift (task : DeferCallback) (q : t) : QueueRef * t :=
  let q := call_hook (taskAdded q) (fun f => TaskAdded f task) q in
  let q := on_fastQueue (Fastq.unshift task) q in
  (this q, q).

(** [pause()] *)
Definition pause (q : t) : t := set_fastQueue (Fastq.pause (fastQueue q)) q.

(** [resume()] *)
Definition resume (q : t) : t := on_fastQueue Fastq.resume q.

(** [isIdle()] *)
Definition isIdle (q : t) : bool := Fastq.idle (fastQueue q).

(** [size()] *)
Definition size (q : t) : nat := Fastq.length (fastQueue q).

(** [kill()] *)
Definition kill (q : t) : t :=
  let q := on_fastQueue Fastq.killAndDrain q in
  match drainCallback q with
  | Some callback => set_fastQueue (Fastq.set_drain (Fastq.fn callback) (fastQueue q)) q
  | None => q
  end.

(** The awaited operation of the [i]-th task in flight settles: the
    worker calls [done], the executor passes the two arguments on to the
    completion callback it was given with the task ([#notifier]) and then
    frees the slot.  Without an [i]-th task in flight nothing happens. *)
Definition settle (i : nat) (q : t) : t :=
  match Fastq.running (fastQueue q) !! i with
  | None => q
  | Some cb =>
      let '(error, taskResult) := worker cb in
      let q := log [Done error taskResult] q in
      let q := notifier error taskResult q in
      on_fastQueue (Fastq.release i) q
  end.

End DeferQueue.

(** ** Histories

    What can happen to a queue: the calls of its public interface, and
    the settling of a task in flight. *)
Inductive Op : Type :=
| Push (task : DeferCallback)
| Unshift (task : DeferCallback)
| CreateNotifier
| Pause
| Resume
| Kill
| SetDrained (callback : FnRef)
| SetOnError (hook : option FnRef)
| SetTaskCompleted (hook : option FnRef)
| SetTaskAdded (hook : option FnRef)
| Settle (i : nat).

Definition step (q : DeferQueue.t) (op : Op) : DeferQueue.t :=
  match op with
  | Push task => snd (DeferQueue.push task q)
  | Unshift task => snd (DeferQueue.unshift task q)
  | CreateNotifier => snd (DeferQueue.createNotifier q)
  | Pause => DeferQueue.pause q
  | Resume => DeferQueue.resume q
  | Kill => DeferQueue.kill q
  | SetDrained callback => DeferQueue.set_drained callback q
  | SetOnError hook => DeferQueue.set_onError hook q
  | SetTaskCompleted hook => DeferQueue.set_taskCompleted hook q
  | SetTaskAdded hook => DeferQueue.set_taskAdded hook q
  | Settle i => DeferQueue.settle i q
  end.

Definition run (ops : list Op) (q : DeferQueue.t) : DeferQueue.t :=
  foldl step q ops.


(** ** Observations on a trace *)

(** The values [resolve] was called with on the notifier [d]. *)
Definition resolutions (d : DeferredRef) (tr : list Event) : list PromiseSettledResult :=
  omap (fun e => match e with
                 | Resolve d' value => if decide (d' = d) then Some value else None
                 | _ => None
                 end) tr.

(** The calls to [reject]. *)
Definition rejections (tr : list Event) : list (DeferredRef * Js.value) :=
  omap (fun e => match e with Reject d reason => Some (d, reason) | _ => None end) tr.

(** The calls made to the [onError] and [taskCompleted] hooks. *)
Definition outcome_hook_calls (tr : list Event) : list Event :=
  omap (fun e => match e with OnError _ _ _ | TaskCompleted _ _ => Some e | _ => None end) tr.

(** The call expressions the worker evaluated, in order. *)
Definition invocations (tr : list Event) : list Invocation :=
  omap (fun e => match e with Invoke call => Some call | _ => None end) tr.

(** The task a call expression of the worker is about. *)
Definition callee (call : Invocation) : DeferCallback :=
  match call with
  | CallItself cb => cb
  | CallRun cb => cb
  end.

(** The tasks the worker invoked, in the order it invoked them. *)
Definition invoked (tr : list Event) : list DeferCallback :=
  callee <$> invocations tr.

(** The arguments of the calls to [done]. *)
Definition completed (tr : list Event) : list (Js.value * TaskResult.t) :=
  omap (fun e => match e with Done error taskResult => Some (error, taskResult) | _ => None end) tr.

(** The pending tasks discarded by kills. *)
Definition discarded (tr : list Event) : list DeferCallback :=
  mjoin (omap (fun e => match e with Discard cbs => Some cbs | _ => None end) tr).

(** The calls to the drain slot. *)
Definition drain_calls (tr : list Event) : list Fastq.drainFn :=
  omap (fun e => match e with Drained f => Some f | _ => None end) tr.

(** What a completion means for the notifier that gets it: the settled
    result [#notifier] builds from the arguments of [done]. *)
Definition outcome (c : Js.value * TaskResult.t) : PromiseSettledResult :=
  if Js.truthy (fst c) then rejected (fst c) else fulfilled (snd c).

(** The tasks submitted by a history. *)
Definition submitted (ops : list Op) : list DeferCallback :=
  omap (fun op => match op with Push task | Unshift task => Some task | _ => None end) ops.

(** The drain callback a history assigned last. *)
Definition last_drained (ops : list Op) : option FnRef :=
  last (omap (fun op => match op with SetDrained callback => Some callback | _ => None end) ops).

(** The value of the drain slot that corresponds to [#drainCallback]. *)
Definition slot_of (callback : option FnRef) : Fastq.drainFn :=
  match callback with
  | Some f => Fastq.fn f
  | None => Fastq.noop
  end.


(** ** Notifier histories

    What happens to the waiting list: a call of [createNotifier], or a
    completion delivered to [#notifier] with its two arguments. *)
Inductive NotifierEvent : Type :=
| Create
| Complete (error : Js.value) (taskResult : TaskResult.t).

Definition notify (q : DeferQueue.t) (e : NotifierEvent) : DeferQueue.t :=
  match e with
  | Create => snd (DeferQueue.createNotifier q)
  | Complete error taskResult => DeferQueue.notifier error taskResult q
  end.

Definition replay (es : list NotifierEvent) (q : DeferQueue.t) : DeferQueue.t :=
  foldl notify q es.

(** The completions of a notifier history, in order. *)
Definition completions (es : list NotifierEvent) : list (Js.value * TaskResult.t) :=
  omap (fun e => match e with
                 | Complete error taskResult => Some (error, taskResult)
                 | Create => None
                 end) es.

(** The number of notifiers a notifier history creates. *)
Definition creations (es : list NotifierEvent) : nat :=
  length (omap (fun e => match e with Create => Some tt | Complete _ _ => None end) es).

(** Positional matching as worded: on a new queue, the notifier created
    by the event at position [p], the [N]-th one created, ends up
    resolved with the outcome of the [N]-th completion that follows its
    creation (whenever there is one). *)
Definition resolved_by_Nth_later_completion (es : list NotifierEvent) : Prop :=
  forall p c,
    es !! p = Some Create ->
    let before := replay (take p es) (DeferQueue.new 0 None) in
    let d := fst (DeferQueue.createNotifier before) in
    let N := creations (take (S p) es) in
    completions (drop (S p) es) !! (N - 1) = Some c ->
    DeferQueue.deferreds (replay es (DeferQueue.new 0 None)) !! d =
      Some (Deferred.Resolved (outcome c)).

(** The same with the completions counted from the start of the history
    instead of from the creation of the notifier. *)
Definition resolved_by_Nth_completion (es : list NotifierEvent) : Prop :=
  forall p c,
    es !! p = Some Create ->
    let before := replay (take p es) (DeferQueue.new 0 None) in
    let d := fst (DeferQueue.createNotifier before) in
    let N := creations (take (S p) es) in
    completions es !! (N - 1) = Some c ->
    DeferQueue.deferreds (replay es (DeferQueue.new 0 None)) !! d =
      Some (Deferred.Resolved (outcome c)).

(** The hook [#notifier] calls for a completion, if it is assigned. *)
Definition hook_call (error : Js.value) (taskResult : TaskResult.t) (q : DeferQueue.t)
    : option Event :=
  if Js.truthy error
  then (fun f => OnError f error taskResult) <$> DeferQueue.onError q
  else (fun f => TaskCompleted f taskResult) <$> DeferQueue.taskCompleted q.

(** ** The waiting list invariant

    The notifiers in [#notifiers] are distinct, each is a pending
    [Deferred] on which [resolve] was never called, and nothing was
    resolved that was not created. *)
Record waiting_ok (q : DeferQueue.t) : Prop := {
  waiting_nodup : NoDup (DeferQueue.notifiers q);
  waiting_pending : forall d, d ∈ DeferQueue.notifiers q ->
    DeferQueue.deferreds q !! d = Some Deferred.Pending /\
    resolutions d (DeferQueue.trace q) = [];
  waiting_fresh : forall d, length (DeferQueue.deferreds q) <= d ->
    resolutions d (DeferQueue.trace q) = [];
}.

(** ** Observations on the executor *)

(** The pending order: the tasks admitted and not yet started. *)
Definition pending (q : DeferQueue.t) : list DeferCallback :=
  Fastq.tasks (DeferQueue.fastQueue q).

(** The tasks in flight: started and not yet settled. *)
Definition in_flight (q : DeferQueue.t) : list DeferCallback :=
  Fastq.running (DeferQueue.fastQueue q).

(** A submission, to the front ([unshift]) or to the back ([push]). *)
Definition submission (s : bool * DeferCallback) : Op :=
  if fst s then Unshift (snd s) else Push (snd s).

(** The tasks of a list of submissions that were unshifted, and those
    that were pushed, each in the order of the calls. *)
Definition unshifted (subs : list (bool * DeferCallback)) : list DeferCallback :=
  snd <$> filter (fun s => fst s = true) subs.

Definition pushed (subs : list (bool * DeferCallback)) : list DeferCallback :=
  snd <$> filter (fun s => fst s = false) subs.

(** ** Further observations *)

(** The calls made to the [taskAdded] hook: the hook and its argument. *)
Definition added_calls (tr : list Event) : list (FnRef * DeferCallback) :=
  omap (fun e => match e with TaskAdded hook task => Some (hook, task) | _ => None end) tr.

(** The calls to [resolve]: the notifier and the value it is given. *)
Definition resolve_calls (tr : list Event) : list (DeferredRef * PromiseSettledResult) :=
  omap (fun e => match e with Resolve d value => Some (d, value) | _ => None end) tr.

(** The ledger of the notifiers.  [resolve] was called on the oldest
    notifiers, once each and in the order of their creation, and they
    hold the values it was called with, which are outcomes of
    completions, in the order of the completions; the notifiers created
    since are pending and make up the waiting list, in the order of
    their creation; [reject] was never called. *)
Record ledger_ok (q : DeferQueue.t) : Prop := {
  ledger_order :
    (resolve_calls (DeferQueue.trace q)).*1 =
      seq 0 (length (resolve_calls (DeferQueue.trace q)));
  ledger_waiting :
    DeferQueue.notifiers q =
      seq (length (resolve_calls (DeferQueue.trace q))) (length (DeferQueue.notifiers q));
  ledger_heap :
    DeferQueue.deferreds q =
      (Deferred.Resolved <$> (resolve_calls (DeferQueue.trace q)).*2)
        ++ replicate (length (DeferQueue.notifiers q)) Deferred.Pending;
  ledger_rejections : rejections (DeferQueue.trace q) = [];
  ledger_outcomes :
    (resolve_calls (DeferQueue.trace q)).*2
      `sublist_of` (outcome <$> completed (DeferQueue.trace q));
}.

(** The values the settled notifiers hold, the oldest notifier first. *)
Definition settled_values (h : Deferred.heap) : list PromiseSettledResult :=
  omap (fun deferred => match deferred with
                        | Deferred.Resolved value => Some value
                        | _ => None
                        end) h.

(** The calls a step makes, in order, given the tasks [started] that the
    executor hands to the worker during the step. *)
Definition step_events (q : DeferQueue.t) (op : Op) (started : list DeferCallback)
    : list Event :=
  let runs := (fun cb => Invoke (DeferQueue.worker_call cb)) <$> started in
  match op with
  | Push task | Unshift task =>
      option_list ((fun f => TaskAdded f task) <$> DeferQueue.taskAdded q) ++ runs
  | Resume => runs
  | Kill => [Discard (pending q); Drained (DeferQueue.drained q)]
  | Settle i =>
      match in_flight q !! i with
      | Some cb =>
          let error := fst (DeferQueue.worker cb) in
          let taskResult := snd (DeferQueue.worker cb) in
          [Done error taskResult]
            ++ option_list (hook_call error taskResult q)
            ++ option_list ((fun d => Resolve d (outcome (error, taskResult)))
                              <$> head (DeferQueue.notifiers q))
            ++ runs
            ++ (if DeferQueue.isIdle (step q op)
                then [Drained (DeferQueue.drained q)] else [])
      | None => []
      end
  | _ => []
  end.

(** Steps that leave the three hook fields as they are. *)
Definition keeps_hooks (op : Op) : bool :=
  match op with
  | SetOnError _ | SetTaskCompleted _ | SetTaskAdded _ => false
  | _ => true
  end.

(** Steps other than [unshift] and [kill]. *)
Definition keeps_order (op : Op) : bool :=
  match op with
  | Unshift _ | Kill => false
  | _ => true
  end.

(** The slots of the executor are in order: no more tasks are in flight
    than the concurrency allows, and on a queue that is not paused tasks
    wait only while all slots are taken. *)
Definition slots_ok (q : DeferQueue.t) : Prop :=
  length (in_flight q) <= Fastq.concurrency (DeferQueue.fastQueue q) /\
  (Fastq.paused (DeferQueue.fastQueue q) = false ->
   pending q = [] \/ Fastq.concurrency (DeferQueue.fastQueue q) <= length (in_flight q)).

(** The object task [{ name: cb.name, run: cb }] that wraps a function
    task; an object task is left as it is. *)
Definition as_object (cb : DeferCallback) : DeferCallback :=
  match cb with
  | Callback name call => Task name call
  | Task name run => Task name run
  end.

(** A history, an entry of the trace and a state with every task
    replaced by its object form. *)
Definition op_as_object (op : Op) : Op :=
  match op with
  | Push task => Push (as_object task)
  | Unshift task => Unshift (as_object task)
  | _ => op
  end.

Definition event_as_object (e : Event) : Event :=
  match e with
  | TaskAdded hook task => TaskAdded hook (as_object task)
  | Invoke call => Invoke (DeferQueue.worker_call (as_object (callee call)))
  | Discard tasks => Discard (as_object <$> tasks)
  | _ => e
  end.

Definition executor_as_object (fq : Fastq.queue DeferCallback) : Fastq.queue DeferCallback :=
  Fastq.mk (as_object <$> Fastq.tasks fq) (as_object <$> Fastq.running fq)
    (Fastq.paused fq) (Fastq.concurrency fq) (Fastq.drain fq).

Definition state_as_object (q : DeferQueue.t) : DeferQueue.t :=
  DeferQueue.mk (DeferQueue.this q) (DeferQueue.drainCallback q)
    (executor_as_object (DeferQueue.fastQueue q))
    (DeferQueue.notifiers q) (DeferQueue.onError q) (DeferQueue.taskCompleted q)
    (DeferQueue.taskAdded q) (DeferQueue.deferreds q)
    (event_as_object <$> DeferQueue.trace q).

(** The way to wait for a task: create a notifier, submit the task, and
    let it settle. *)
Definition awaited (task : DeferCallback) : list Op :=
  [CreateNotifier; Push task; Settle 0].

(** * Properties *)

(** ** The executor's effects keep to [#fastQueue] and the trace *)

Lemma on_fastQueue_unfold op q :
  DeferQueue.on_fastQueue op q =
  DeferQueue.log (DeferQueue.effect_event <$> snd (op (DeferQueue.fastQueue q)))
    (DeferQueue.set_fastQueue (fst (op (DeferQueue.fastQueue q))) q).
Proof.
  unfold DeferQueue.on_fastQueue, DeferQueue.perform.
  by destruct (op (DeferQueue.fastQueue q)).
Qed.

Lemma call_hook_unfold hook call q :
  DeferQueue.call_hook hook call q = DeferQueue.log (option_list (call <$> hook)) q.
Proof.
  destruct hook; simpl; [done|].
  destruct q; unfold DeferQueue.log; simpl. by rewrite app_nil_r.
Qed.

Lemma resolutions_app d tr1 tr2 :
  resolutions d (tr1 ++ tr2) = resolutions d tr1 ++ resolutions d tr2.
Proof. apply omap_app. Qed.

(** ** The waiting list *)

Lemma waiting_ok_new self options : waiting_ok (DeferQueue.new self options).
Proof.
  split; simpl.
  - constructor.
  - intros d Hd. by apply elem_of_nil in Hd.
  - done.
Qed.

(** A step that leaves the waiting list and the [Deferred] objects alone
    and calls no [resolve] keeps the invariant. *)
Lemma waiting_ok_frame q q' :
  DeferQueue.notifiers q' = DeferQueue.notifiers q ->
  DeferQueue.deferreds q' = DeferQueue.deferreds q ->
  (forall d, resolutions d (DeferQueue.trace q') = resolutions d (DeferQueue.trace q)) ->
  waiting_ok q -> waiting_ok q'.
Proof.
  intros Hn Hd Hr [H1 H2 H3]. split.
  - by rewrite Hn.
  - intros d. rewrite Hn, Hd, Hr. apply H2.
  - intros d. rewrite Hd, Hr. apply H3.
Qed.

Lemma resolutions_effects d (effects : list (Fastq.effect DeferCallback)) :
  resolutions d (DeferQueue.effect_event <$> effects) = [].
Proof. induction effects as [|[] ? IH]; simpl; auto. Qed.

Lemma waiting_ok_on_fastQueue op q :
  waiting_ok q -> waiting_ok (DeferQueue.on_fastQueue op q).
Proof.
  rewrite on_fastQueue_unfold. apply waiting_ok_frame; simpl; try done.
  intros d. by rewrite resolutions_app, resolutions_effects, app_nil_r.
Qed.

Lemma waiting_ok_call_hook hook call q :
  (forall f d, resolutions d [call f] = []) ->
  waiting_ok q -> waiting_ok (DeferQueue.call_hook hook call q).
Proof.
  intros Hcall. destruct hook as [f|]; simpl; [|done].
  apply waiting_ok_frame; simpl; try done.
  intros d. by rewrite resolutions_app, Hcall, app_nil_r.
Qed.

Lemma waiting_ok_createNotifier q :
  waiting_ok q -> waiting_ok (snd (DeferQueue.createNotifier q)).
Proof.
  intros [H1 H2 H3]. unfold DeferQueue.createNotifier, Deferred.new.
  split; simpl.
  - apply NoDup_app. split_and!; [done| |apply NoDup_singleton].
    intros d Hd Hd'%list_elem_of_singleton. subst d.
    destruct (H2 _ Hd) as [Hp _]. apply lookup_lt_Some in Hp. lia.
  - intros d [Hd|Hd%list_elem_of_singleton]%elem_of_app.
    + destruct (H2 _ Hd) as [Hp Hr]. split; [|done].
      by apply lookup_app_l_Some.
    + subst d. split; [|by apply H3].
      rewrite lookup_app_r by done. by rewrite Nat.sub_diag.
  - intros d Hd. rewrite length_app in Hd. simpl in Hd. apply H3. lia.
Qed.

Lemma notifier_unfold error taskResult q :
  DeferQueue.notifier error taskResult q =
  DeferQueue.resolve_notifier (head (DeferQueue.notifiers q)) (outcome (error, taskResult))
    (DeferQueue.log (option_list (hook_call error taskResult q))
       (DeferQueue.set_notifiers (tail (DeferQueue.notifiers q)) q)).
Proof.
  unfold DeferQueue.notifier, outcome, hook_call. simpl.
  rewrite !call_hook_unfold. by destruct (Js.truthy error).
Qed.

Lemma resolutions_hook_call d error taskResult q :
  resolutions d (option_list (hook_call error taskResult q)) = [].
Proof.
  unfold hook_call.
  destruct (Js.truthy error);
    [destruct (DeferQueue.onError q)|destruct (DeferQueue.taskCompleted q)]; done.
Qed.

Lemma waiting_ok_notifier error taskResult q :
  waiting_ok q -> waiting_ok (DeferQueue.notifier error taskResult q).
Proof.
  intros [H1 H2 H3]. rewrite notifier_unfold.
  destruct (DeferQueue.notifiers q) as [|d0 waiting] eqn:Hw; simpl.
  - split; simpl.
    + constructor.
    + intros d Hd. by apply elem_of_nil in Hd.
    + intros d Hd. rewrite resolutions_app, resolutions_hook_call, app_nil_r. by apply H3.
  - apply NoDup_cons in H1 as [Hd0 Hnd].
    destruct (H2 d0) as [Hp0 Hr0]; [left|].
    split; simpl.
    + done.
    + intros d Hd.
      assert (d <> d0) by (intros ->; done).
      destruct (H2 d) as [Hp Hr]; [by right|]. split.
      * unfold Deferred.resolve. rewrite Hp0.
        by rewrite list_lookup_insert_ne.
      * rewrite !resolutions_app, Hr, resolutions_hook_call. simpl.
        by rewrite decide_False.
    + intros d Hd. unfold Deferred.resolve in Hd. rewrite Hp0 in Hd.
      rewrite length_insert in Hd.
      apply lookup_lt_Some in Hp0.
      rewrite !resolutions_app, resolutions_hook_call, H3 by done. simpl.
      rewrite decide_False by lia. done.
Qed.

Lemma waiting_ok_step q op : waiting_ok q -> waiting_ok (step q op).
Proof.
  intros H. destruct op; simpl.
  - apply waiting_ok_on_fastQueue. by apply waiting_ok_call_hook.
  - apply waiting_ok_on_fastQueue. by apply waiting_ok_call_hook.
  - by apply waiting_ok_createNotifier.
  - revert H. by apply waiting_ok_frame.
  - by apply waiting_ok_on_fastQueue.
  - unfold DeferQueue.kill.
    apply (waiting_ok_on_fastQueue Fastq.killAndDrain) in H.
    destruct (DeferQueue.drainCallback _); [|done].
    revert H. by apply waiting_ok_frame.
  - revert H. by apply waiting_ok_frame.
  - revert H. by apply waiting_ok_frame.
  - revert H. by apply waiting_ok_frame.
  - revert H. by apply waiting_ok_frame.
  - unfold DeferQueue.settle.
    destruct (_ !! i) as [cb|]; [|done].
    destruct (DeferQueue.worker cb) as [error taskResult].
    apply waiting_ok_on_fastQueue, waiting_ok_notifier.
    revert H. apply waiting_ok_frame; simpl; try done.
    intros d. by rewrite resolutions_app, app_nil_r.
Qed.

Lemma run_snoc ops op q : run (ops ++ [op]) q = step (run ops q) op.
Proof. unfold run. by rewrite foldl_snoc. Qed.

Lemma waiting_ok_run ops q : waiting_ok q -> waiting_ok (run ops q).
Proof.
  revert q. induction ops as [|op ops IH]; intros q H; [done|].
  apply IH. by apply waiting_ok_step.
Qed.

Lemma drop_app_length' {A} (l k : list A) : drop (length l) (l ++ k) = k.
Proof. by rewrite drop_app_length. Qed.

(** ** The completion handler *)

(** C1.  Whenever a completion is delivered to [#notifier] -- in any
    state a history of the queue leads to, with any [error] and
    [taskResult] -- the handler removes the oldest notifier from the
    waiting list (nothing, if the list is empty); it calls exactly one
    hook if the one for the outcome is assigned and none otherwise:
    [onError(error, taskResult)] on a failure, else
    [taskCompleted(taskResult)]; it never calls [reject]; and the
    removed notifier, which was pending, is resolved with
    [{status: 'rejected', reason: error}] on a failure and with
    [{status: 'fulfilled', value: taskResult}] otherwise.  The
    completion is a failure when its [error] is set, which is how the
    handler tells ([if (error)]): any [Error] object is, [null] is not. *)
Theorem notifier_pops_notifies_resolves
    (self : QueueRef) (options : option QueueOptions) (ops : list Op)
    (error : Js.value) (taskResult : TaskResult.t) :
  let q := run ops (DeferQueue.new self options) in
  let q' := DeferQueue.notifier error taskResult q in
  let emitted := drop (length (DeferQueue.trace q)) (DeferQueue.trace q') in
  let failed := Js.truthy error in
  let hook :=
    if failed
    then (fun f => OnError f error taskResult) <$> DeferQueue.onError q
    else (fun f => TaskCompleted f taskResult) <$> DeferQueue.taskCompleted q in
  let result :=
    if failed then rejected error else fulfilled taskResult in
  (forall message, Js.truthy (Js.Error message) = true) /\
  Js.truthy Js.null = false /\
  DeferQueue.notifiers q' = tail (DeferQueue.notifiers q) /\
  DeferQueue.trace q' = DeferQueue.trace q ++ emitted /\
  outcome_hook_calls emitted = option_list hook /\
  rejections emitted = [] /\
  match head (DeferQueue.notifiers q) with
  | Some d =>
      emitted = option_list hook ++ [Resolve d result] /\
      DeferQueue.deferreds q !! d = Some Deferred.Pending /\
      DeferQueue.deferreds q' !! d = Some (Deferred.Resolved result)
  | None =>
      emitted = option_list hook /\
      DeferQueue.deferreds q' = DeferQueue.deferreds q
  end.
Proof.
  intros q q' emitted failed hook result. unfold failed in *.
  split; [done|]. split; [done|].
  assert (Hok : waiting_ok q) by apply waiting_ok_run, waiting_ok_new.
  assert (Hhook : hook = hook_call error taskResult q) by done.
  assert (Hres : result = outcome (error, taskResult)) by done.
  assert (Hcalls : outcome_hook_calls (option_list hook) = option_list hook).
  { unfold hook. destruct (Js.truthy error);
      [destruct (DeferQueue.onError q)|destruct (DeferQueue.taskCompleted q)]; done. }
  assert (Hrej : rejections (option_list hook) = []).
  { unfold hook. destruct (Js.truthy error);
      [destruct (DeferQueue.onError q)|destruct (DeferQueue.taskCompleted q)]; done. }
  unfold emitted, q'. rewrite notifier_unfold, <- Hhook, <- Hres.
  destruct Hok as [_ Hpending _].
  destruct (DeferQueue.notifiers q) as [|d waiting]; simpl.
  - rewrite drop_app_length'. done.
  - destruct (Hpending d) as [Hp _]; [left|].
    rewrite <- app_assoc, drop_app_length'.
    unfold outcome_hook_calls, rejections in *.
    rewrite !omap_app, Hcalls, Hrej. simpl. rewrite app_nil_r.
    split_and!; try done.
    unfold Deferred.resolve. rewrite Hp.
    apply list_lookup_insert_eq. by apply lookup_lt_Some in Hp.
Qed.

(** ** Positional matching of notifiers *)

Lemma waiting_ok_notify q e : waiting_ok q -> waiting_ok (notify q e).
Proof.
  destruct e; simpl.
  - apply waiting_ok_createNotifier.
  - apply waiting_ok_notifier.
Qed.

(** A notifier that has left the waiting list is never touched again. *)
Lemma notify_settled q e d s vs :
  waiting_ok q ->
  d ∉ DeferQueue.notifiers q ->
  DeferQueue.deferreds q !! d = Some s ->
  resolutions d (DeferQueue.trace q) = vs ->
  (d ∉ DeferQueue.notifiers (notify q e)) /\
  DeferQueue.deferreds (notify q e) !! d = Some s /\
  resolutions d (DeferQueue.trace (notify q e)) = vs.
Proof.
  intros [Hnd Hpending Hfresh] Hd Hs Hvs. destruct e as [|error taskResult]; simpl.
  - unfold DeferQueue.createNotifier, Deferred.new. simpl. split_and!.
    + intros [?|Heq%list_elem_of_singleton]%elem_of_app; [done|].
      apply lookup_lt_Some in Hs. lia.
    + by apply lookup_app_l_Some.
    + done.
  - rewrite notifier_unfold.
    destruct (DeferQueue.notifiers q) as [|d0 waiting]; simpl.
    + rewrite resolutions_app, resolutions_hook_call, app_nil_r. done.
    + apply not_elem_of_cons in Hd as [Hne Hd].
      destruct (Hpending d0) as [Hp0 _]; [left|].
      unfold Deferred.resolve. rewrite Hp0.
      rewrite list_lookup_insert_ne by done.
      rewrite !resolutions_app, resolutions_hook_call. simpl.
      rewrite decide_False by done. by rewrite !app_nil_r.
Qed.

Lemma replay_settled es q d s vs :
  waiting_ok q ->
  d ∉ DeferQueue.notifiers q ->
  DeferQueue.deferreds q !! d = Some s ->
  resolutions d (DeferQueue.trace q) = vs ->
  (d ∉ DeferQueue.notifiers (replay es q)) /\
  DeferQueue.deferreds (replay es q) !! d = Some s /\
  resolutions d (DeferQueue.trace (replay es q)) = vs.
Proof.
  revert q. induction es as [|e es IH]; intros q Hok Hd Hs Hvs; [done|].
  destruct (notify_settled q e d s vs) as (? & ? & ?); try done.
  apply IH; try done. by apply waiting_ok_notify.
Qed.

(** The notifier at position [k] of the waiting list is resolved by the
    completion at position [k] of what follows, with its outcome, once;
    it stays pending in the list if there is no such completion. *)
Lemma replay_position es q d k :
  waiting_ok q ->
  DeferQueue.notifiers q !! k = Some d ->
  match completions es !! k with
  | Some c =>
      DeferQueue.deferreds (replay es q) !! d = Some (Deferred.Resolved (outcome c)) /\
      (d ∉ DeferQueue.notifiers (replay es q)) /\
      resolutions d (DeferQueue.trace (replay es q)) = [outcome c]
  | None =>
      DeferQueue.deferreds (replay es q) !! d = Some Deferred.Pending /\
      (d ∈ DeferQueue.notifiers (replay es q)) /\
      resolutions d (DeferQueue.trace (replay es q)) = []
  end.
Proof.
  revert q k. induction es as [|e es IH]; intros q k Hok Hk.
  - simpl.
    assert (Hd : d ∈ DeferQueue.notifiers q) by (apply list_elem_of_lookup; eauto).
    destruct Hok as [_ Hpending _]. destruct (Hpending d Hd). done.
  - destruct e as [|error taskResult].
    + apply (IH (notify q Create) k); [by apply waiting_ok_notify|].
      simpl. unfold DeferQueue.createNotifier, Deferred.new. simpl.
      by apply lookup_app_l_Some.
    + change (completions (Complete error taskResult :: es))
        with ((error, taskResult) :: completions es).
      change (replay (Complete error taskResult :: es) q)
        with (replay es (DeferQueue.notifier error taskResult q)).
      pose proof (waiting_ok_notifier error taskResult q Hok) as Hok'.
      destruct Hok as [Hnd Hpending _].
      destruct (DeferQueue.notifiers q) as [|d0 waiting] eqn:Hw; [done|].
      destruct k as [|k]; simpl in Hk.
      * injection Hk as ->. simpl.
        apply NoDup_cons in Hnd as [Hd Hnd].
        destruct (Hpending d) as [Hp Hr]; [left|].
        destruct (replay_settled es (DeferQueue.notifier error taskResult q) d
                    (Deferred.Resolved (outcome (error, taskResult)))
                    [outcome (error, taskResult)]) as (? & ? & ?); try done.
        -- rewrite notifier_unfold, Hw. done.
        -- rewrite notifier_unfold, Hw. simpl.
           unfold Deferred.resolve. rewrite Hp.
           apply list_lookup_insert_eq. by apply lookup_lt_Some in Hp.
        -- rewrite notifier_unfold, Hw. simpl.
           rewrite !resolutions_app, Hr, resolutions_hook_call. simpl.
           by rewrite decide_True.
      * simpl. apply IH; [done|].
        rewrite notifier_unfold, Hw. simpl.
        by destruct (hook_call error taskResult q).
Qed.

Lemma createNotifier_position q :
  DeferQueue.notifiers (snd (DeferQueue.createNotifier q))
    !! length (DeferQueue.notifiers q) = Some (fst (DeferQueue.createNotifier q)).
Proof.
  unfold DeferQueue.createNotifier, Deferred.new. simpl.
  rewrite lookup_app_r by done. by rewrite Nat.sub_diag.
Qed.

(** C2, as worded, fails: on a new queue, after a completion, a
    notifier, a completion, a second notifier and two more completions,
    the second notifier is resolved by the first completion that follows
    its creation (the third of the history): neither by the second
    completion after its creation nor by the second of the history. *)
Lemma positional_matching_as_worded_fails :
  let r := fun name => TaskResult.make name (Some Js.undefined) in
  let es := [Complete Js.null (r "t0"); Create; Complete Js.null (r "t1");
             Create; Complete Js.null (r "t2"); Complete Js.null (r "t3")] in
  ~ resolved_by_Nth_later_completion es /\ ~ resolved_by_Nth_completion es.
Proof.
  split; intros H.
  - specialize (H 3 (Js.null, TaskResult.make "t3" (Some Js.undefined)) eq_refl eq_refl).
    vm_compute in H. discriminate H.
  - specialize (H 3 (Js.null, TaskResult.make "t1" (Some Js.undefined)) eq_refl eq_refl).
    vm_compute in H. discriminate H.
Qed.

(** C2, amended.  In any state a history of the queue leads to, a
    notifier created while [ahead] notifiers are waiting is resolved by
    the completion number [ahead + 1] among those that follow its
    creation, with the outcome of that completion whatever task it comes
    from; [resolve] is called on it exactly once, after it left the
    waiting list.  If fewer completions follow (none, in particular) it
    stays pending in the waiting list and [resolve] is not called. *)
Theorem notifier_resolved_in_turn
    (self : QueueRef) (options : option QueueOptions) (ops : list Op)
    (es : list NotifierEvent) :
  let q0 := run ops (DeferQueue.new self options) in
  let ahead := length (DeferQueue.notifiers q0) in
  let d := fst (DeferQueue.createNotifier q0) in
  let q := replay es (snd (DeferQueue.createNotifier q0)) in
  match completions es !! ahead with
  | Some c =>
      DeferQueue.deferreds q !! d = Some (Deferred.Resolved (outcome c)) /\
      (d ∉ DeferQueue.notifiers q) /\
      resolutions d (DeferQueue.trace q) = [outcome c]
  | None =>
      DeferQueue.deferreds q !! d = Some Deferred.Pending /\
      (d ∈ DeferQueue.notifiers q) /\
      resolutions d (DeferQueue.trace q) = []
  end.
Proof.
  intros q0 ahead d q.
  apply replay_position.
  - apply waiting_ok_createNotifier, waiting_ok_run, waiting_ok_new.
  - apply createNotifier_position.
Qed.

(** ** Task failures *)

Lemma settle_unfold i cb q :
  Fastq.running (DeferQueue.fastQueue q) !! i = Some cb ->
  DeferQueue.settle i q =
  DeferQueue.on_fastQueue (Fastq.release i)
    (DeferQueue.notifier (fst (DeferQueue.worker cb)) (snd (DeferQueue.worker cb))
       (DeferQueue.log [Done (fst (DeferQueue.worker cb)) (snd (DeferQueue.worker cb))] q)).
Proof.
  intros H. unfold DeferQueue.settle. rewrite H.
  by destruct (DeferQueue.worker cb).
Qed.

(** The worker catches whatever the task throws or rejects with and
    hands it to [done] as the error, with a [{name}] record. *)
Lemma worker_catches cb error :
  operation_of (DeferQueue.worker_call cb) = Throws error \/
  operation_of (DeferQueue.worker_call cb) = Rejects error ->
  DeferQueue.worker cb = (error, TaskResult.make (name_of cb) None).
Proof. unfold DeferQueue.worker. by intros [-> | ->]. Qed.

(** A failure whose error is truthy (any [Error] object, for one) reaches
    [onError] and the oldest waiting notifier as a failure. *)
Lemma truthy_failure_delivered
    (self : QueueRef) (options : option QueueOptions) (ops : list Op)
    (i : nat) (cb : DeferCallback) (error : Js.value) :
  let q := run ops (DeferQueue.new self options) in
  Fastq.running (DeferQueue.fastQueue q) !! i = Some cb ->
  operation_of (DeferQueue.worker_call cb) = Throws error \/
  operation_of (DeferQueue.worker_call cb) = Rejects error ->
  Js.truthy error = true ->
  let taskResult := TaskResult.make (name_of cb) None in
  exists executor_calls,
    DeferQueue.trace (DeferQueue.settle i q) =
      DeferQueue.trace q ++ [Done error taskResult]
        ++ option_list ((fun f => OnError f error taskResult) <$> DeferQueue.onError q)
        ++ option_list ((fun d => Resolve d (rejected error)) <$> head (DeferQueue.notifiers q))
        ++ (DeferQueue.effect_event <$> executor_calls) /\
    forall d, head (DeferQueue.notifiers q) = Some d ->
      DeferQueue.deferreds (DeferQueue.settle i q) !! d = Some (Deferred.Resolved (rejected error)).
Proof.
  intros q Hi Hop Htruthy taskResult.
  assert (Hok : waiting_ok q) by apply waiting_ok_run, waiting_ok_new.
  rewrite (settle_unfold i cb) by done.
  rewrite (worker_catches cb error) by done. simpl.
  rewrite on_fastQueue_unfold, notifier_unfold.
  unfold hook_call, outcome. simpl. rewrite Htruthy.
  eexists. split.
  - destruct (head (DeferQueue.notifiers q)); simpl; rewrite <- ?app_assoc; reflexivity.
  - intros d Hd. rewrite Hd. simpl.
    destruct Hok as [_ Hpending _].
    destruct (Hpending d) as [Hp _]; [by apply head_Some_elem_of|].
    unfold Deferred.resolve. rewrite Hp.
    apply list_lookup_insert_eq. by apply lookup_lt_Some in Hp.
Qed.

(** C3 at a task whose promise rejects with [undefined] (as
    [Promise.reject()] does), on a queue with both hooks assigned and one
    notifier waiting: the worker catches the rejection and calls
    [done(undefined, {name: 'f'})]; [#notifier] finds [error] unset, so it
    calls [taskCompleted], not [onError], and resolves the notifier with
    status ['fulfilled']. *)
Theorem falsy_rejection_reported_as_success (onError taskCompleted : FnRef) :
  let task := Callback "f" (Rejects Js.undefined) in
  let taskResult := TaskResult.make "f" None in
  let q := run [SetOnError (Some onError); SetTaskCompleted (Some taskCompleted);
                CreateNotifier; Push task; Settle 0] (DeferQueue.new 0 None) in
  DeferQueue.trace q =
    [Invoke (CallItself task); Done Js.undefined taskResult;
     TaskCompleted taskCompleted taskResult; Resolve 0 (fulfilled taskResult);
     Drained Fastq.noop] /\
  DeferQueue.deferreds q = [Deferred.Resolved (fulfilled taskResult)].
Proof. split; reflexivity. Qed.

(** ** The scenario of two tasks *)

(** C5.  Concurrency 1, [onError] and [taskCompleted] assigned, two
    notifiers created in advance, then task A pushed, which returns
    [{v: 1}], then task B, which throws [Error("boom")]; A settles, then
    B.  The first notifier is fulfilled with
    [{name: 'A', response: {v: 1}}], the second is resolved with status
    ['rejected'] and reason [Error("boom")], and the hooks were called
    once each: [taskCompleted({name: 'A', response: {v: 1}})] and
    [onError(Error("boom"), {name: 'B'})]. *)
Theorem scenario_success_then_failure (onError taskCompleted : FnRef) :
  let v1 := Js.object [("v", Js.number 1)] in
  let boom := Js.Error "boom" in
  let A := Callback "A" (Returns v1) in
  let B := Callback "B" (Throws boom) in
  let q := run [SetOnError (Some onError); SetTaskCompleted (Some taskCompleted);
                CreateNotifier; CreateNotifier; Push A; Push B; Settle 0; Settle 0]
               (DeferQueue.new 0 (Some {| concurrency := Some 1 |})) in
  DeferQueue.deferreds q =
    [Deferred.Resolved (fulfilled (TaskResult.make "A" (Some v1)));
     Deferred.Resolved (rejected boom)] /\
  status (fulfilled (TaskResult.make "A" (Some v1))) = "fulfilled" /\
  status (rejected boom) = "rejected" /\
  outcome_hook_calls (DeferQueue.trace q) =
    [TaskCompleted taskCompleted (TaskResult.make "A" (Some v1));
     OnError onError boom (TaskResult.make "B" None)] /\
  invoked (DeferQueue.trace q) = [A; B] /\
  DeferQueue.isIdle q = true.
Proof. repeat split. Qed.

(** ** The executor model *)

Lemma dispatch_spec {T} (q : Fastq.queue T) :
  let started := if Fastq.paused q then []
                 else take (Fastq.concurrency q - length (Fastq.running q)) (Fastq.tasks q) in
  Fastq.tasks q = started ++ Fastq.tasks (fst (Fastq.dispatch q)) /\
  Fastq.running (fst (Fastq.dispatch q)) = Fastq.running q ++ started /\
  snd (Fastq.dispatch q) = Fastq.Work <$> started /\
  Fastq.paused (fst (Fastq.dispatch q)) = Fastq.paused q /\
  Fastq.concurrency (fst (Fastq.dispatch q)) = Fastq.concurrency q /\
  Fastq.drain (fst (Fastq.dispatch q)) = Fastq.drain q.
Proof.
  unfold Fastq.dispatch. destruct q as [ts rs [] c dr]; simpl.
  - by rewrite app_nil_r.
  - by rewrite take_drop.
Qed.

Lemma release_fst {T} i (q : Fastq.queue T) :
  fst (Fastq.release i q) =
  fst (Fastq.dispatch (Fastq.mk (Fastq.tasks q) (delete i (Fastq.running q))
                         (Fastq.paused q) (Fastq.concurrency q) (Fastq.drain q))).
Proof. unfold Fastq.release. by destruct (Fastq.dispatch _). Qed.

Lemma release_snd {T} i (q : Fastq.queue T) :
  snd (Fastq.release i q) =
  snd (Fastq.dispatch (Fastq.mk (Fastq.tasks q) (delete i (Fastq.running q))
                         (Fastq.paused q) (Fastq.concurrency q) (Fastq.drain q)))
  ++ (if Fastq.idle (fst (Fastq.release i q))
      then [Fastq.Drain (Fastq.drain (fst (Fastq.release i q)))] else []).
Proof. unfold Fastq.release. by destruct (Fastq.dispatch _). Qed.

(** Only an assignment or a kill changes the drain slot. *)
Lemma drain_push {T} (task : T) q : Fastq.drain (fst (Fastq.push task q)) = Fastq.drain q.
Proof. unfold Fastq.push. by rewrite (proj2 (proj2 (proj2 (proj2 (proj2 (dispatch_spec _)))))). Qed.

Lemma drain_unshift {T} (task : T) q : Fastq.drain (fst (Fastq.unshift task q)) = Fastq.drain q.
Proof. unfold Fastq.unshift. by rewrite (proj2 (proj2 (proj2 (proj2 (proj2 (dispatch_spec _)))))). Qed.

Lemma drain_resume {T} (q : Fastq.queue T) : Fastq.drain (fst (Fastq.resume q)) = Fastq.drain q.
Proof. unfold Fastq.resume. by rewrite (proj2 (proj2 (proj2 (proj2 (proj2 (dispatch_spec _)))))). Qed.

Lemma drain_release {T} i (q : Fastq.queue T) : Fastq.drain (fst (Fastq.release i q)) = Fastq.drain q.
Proof. rewrite release_fst. by rewrite (proj2 (proj2 (proj2 (proj2 (proj2 (dispatch_spec _)))))). Qed.

(** ** The drain hook *)

Lemma last_drained_snoc ops op :
  last_drained (ops ++ [op]) =
  match op with SetDrained callback => Some callback | _ => last_drained ops end.
Proof.
  unfold last_drained. rewrite omap_app.
  destruct op; simpl; rewrite ?app_nil_r; try done.
  apply last_snoc.
Qed.

(** In every state a history leads to, [#drainCallback] is the callback
    assigned last, and the drain slot of the executor holds it (the
    no-op, if none was ever assigned). *)
Lemma drain_slot_run self options ops :
  let q := run ops (DeferQueue.new self options) in
  DeferQueue.drainCallback q = last_drained ops /\
  DeferQueue.drained q = slot_of (last_drained ops).
Proof.
  induction ops as [|op ops [IH1 IH2]] using rev_ind; [done|].
  simpl. rewrite run_snoc, last_drained_snoc.
  set (q := run ops (DeferQueue.new self options)) in *.
  unfold DeferQueue.drained in *.
  destruct op; simpl;
    rewrite ?on_fastQueue_unfold, ?call_hook_unfold; simpl;
    rewrite ?drain_push, ?drain_unshift, ?drain_resume; try done.
  - unfold DeferQueue.kill. rewrite on_fastQueue_unfold. simpl.
    rewrite IH1. destruct (last_drained ops); done.
  - unfold DeferQueue.settle.
    destruct (_ !! i) as [cb|]; [|done].
    destruct (DeferQueue.worker cb) as [error taskResult].
    rewrite on_fastQueue_unfold, notifier_unfold. simpl.
    rewrite drain_release.
    destruct (head (DeferQueue.notifiers q)); done.
Qed.


(** ** Submission *)

(** The trace entries for the tasks the executor hands to the worker. *)
Lemma effect_event_work (started : list DeferCallback) :
  DeferQueue.effect_event <$> (Fastq.Work <$> started) =
  (fun cb => Invoke (DeferQueue.worker_call cb)) <$> started.
Proof. by rewrite <- list_fmap_compose. Qed.

(** What a submission does, with [insert] the place the executor puts the
    task in the pending order: the hook is called first, then the
    executor starts what it can, from the front of the pending order. *)
Lemma submit_spec (op : DeferCallback -> DeferQueue.t -> QueueRef * DeferQueue.t)
    (insert : DeferCallback -> list DeferCallback -> list DeferCallback)
    (task : DeferCallback) (q : DeferQueue.t) :
  (op = DeferQueue.push /\ insert = (fun task tasks => tasks ++ [task])) \/
  (op = DeferQueue.unshift /\ insert = cons) ->
  let fq := DeferQueue.fastQueue q in
  let q' := snd (op task q) in
  let fq' := DeferQueue.fastQueue q' in
  fst (op task q) = DeferQueue.this q /\
  exists started,
    insert task (Fastq.tasks fq) = started ++ Fastq.tasks fq' /\
    started = (if Fastq.paused fq then []
               else take (Fastq.concurrency fq - length (Fastq.running fq))
                         (insert task (Fastq.tasks fq))) /\
    q' = DeferQueue.mk (DeferQueue.this q) (DeferQueue.drainCallback q)
           (Fastq.mk (Fastq.tasks fq') (Fastq.running fq ++ started) (Fastq.paused fq)
              (Fastq.concurrency fq) (Fastq.drain fq))
           (DeferQueue.notifiers q) (DeferQueue.onError q) (DeferQueue.taskCompleted q)
           (DeferQueue.taskAdded q) (DeferQueue.deferreds q)
           (DeferQueue.trace q
              ++ option_list ((fun f => TaskAdded f task) <$> DeferQueue.taskAdded q)
              ++ ((fun cb => Invoke (DeferQueue.worker_call cb)) <$> started)).
Proof.
  intros Hop fq q' fq'.
  assert (Hq' : q' = DeferQueue.on_fastQueue
                       (fun fq => Fastq.dispatch (Fastq.mk (insert task (Fastq.tasks fq))
                          (Fastq.running fq) (Fastq.paused fq) (Fastq.concurrency fq)
                          (Fastq.drain fq)))
                       (DeferQueue.call_hook (DeferQueue.taskAdded q)
                          (fun f => TaskAdded f task) q)).
  { by destruct Hop as [[-> ->] | [-> ->]]. }
  split; [by destruct Hop as [[-> _] | [-> _]]; simpl;
            rewrite on_fastQueue_unfold, call_hook_unfold|].
  unfold fq'. rewrite Hq'. clear Hq'.
  rewrite on_fastQueue_unfold, call_hook_unfold. simpl. fold fq.
  set (fq0 := Fastq.mk _ _ _ _ _).
  destruct (dispatch_spec fq0) as (Ht & Hr & He & Hp & Hc & Hd).
  eexists. split; [exact Ht|]. split; [done|].
  rewrite He, effect_event_work.
  destruct (fst (Fastq.dispatch fq0)) as [ts rs p c d]; simpl in *.
  subst rs p c d. unfold DeferQueue.log; simpl. by rewrite app_assoc.
Qed.



(** ** Accounting for tasks *)

Lemma delete_absent {A} (l : list A) i : l !! i = None -> delete i l = l.
Proof.
  revert i. induction l as [|x l IH]; intros [|i] H; simpl in *; try done.
  f_equal. by apply IH.
Qed.

Lemma invocations_app tr1 tr2 :
  invocations (tr1 ++ tr2) = invocations tr1 ++ invocations tr2.
Proof. apply omap_app. Qed.


Lemma callee_worker_call cb : callee (DeferQueue.worker_call cb) = cb.
Proof. by destruct cb. Qed.

Lemma completed_app tr1 tr2 : completed (tr1 ++ tr2) = completed tr1 ++ completed tr2.
Proof. apply omap_app. Qed.

Lemma discarded_app tr1 tr2 : discarded (tr1 ++ tr2) = discarded tr1 ++ discarded tr2.
Proof. unfold discarded. by rewrite omap_app, join_app. Qed.

Lemma observe_started (started : list DeferCallback) :
  let tr := (fun cb => Invoke (DeferQueue.worker_call cb)) <$> started in
  invocations tr = DeferQueue.worker_call <$> started /\
  completed tr = [] /\ discarded tr = [].
Proof.
  unfold invocations, completed, discarded.
  induction started as [|cb started (IH1 & IH2 & IH3)]; [done|].
  simpl; (split_and!; [f_equal; exact IH1|exact IH2|exact IH3]).
Qed.

Lemma observe_hook {A} (call : A -> Event) (hook : option A) :
  (forall a, invocations [call a] = [] /\ completed [call a] = [] /\ discarded [call a] = []) ->
  let tr := option_list (call <$> hook) in
  invocations tr = [] /\ completed tr = [] /\ discarded tr = [].
Proof. intros H. destruct hook; simpl; [apply H|done]. Qed.

Ltac observe :=
  repeat match goal with
  | |- context [invocations (_ ++ _)] => rewrite invocations_app
  | |- context [completed (_ ++ _)] => rewrite completed_app
  | |- context [discarded (_ ++ _)] => rewrite discarded_app
  | |- context [invocations (_ <$> ?st)] => rewrite (proj1 (observe_started st))
  | |- context [completed (_ <$> ?st)] => rewrite (proj1 (proj2 (observe_started st)))
  | |- context [discarded (_ <$> ?st)] => rewrite (proj2 (proj2 (observe_started st)))
  | |- context [invocations (option_list (?c <$> ?h))] =>
      rewrite (proj1 (observe_hook c h (fun _ => conj eq_refl (conj eq_refl eq_refl))))
  | |- context [completed (option_list (?c <$> ?h))] =>
      rewrite (proj1 (proj2 (observe_hook c h (fun _ => conj eq_refl (conj eq_refl eq_refl)))))
  | |- context [discarded (option_list (?c <$> ?h))] =>
      rewrite (proj2 (proj2 (observe_hook c h (fun _ => conj eq_refl (conj eq_refl eq_refl)))))
  end.

Lemma notifier_fastQueue error taskResult q :
  DeferQueue.fastQueue (DeferQueue.notifier error taskResult q) = DeferQueue.fastQueue q.
Proof. rewrite notifier_unfold. by destruct (head (DeferQueue.notifiers q)). Qed.

Lemma notifier_trace error taskResult q :
  DeferQueue.trace (DeferQueue.notifier error taskResult q) =
  DeferQueue.trace q ++ option_list (hook_call error taskResult q)
    ++ option_list ((fun d => Resolve d (outcome (error, taskResult)))
                      <$> head (DeferQueue.notifiers q)).
Proof.
  rewrite notifier_unfold.
  destruct (head (DeferQueue.notifiers q)); simpl; by rewrite ?app_nil_r, <- ?app_assoc.
Qed.

Lemma observe_hook_call error taskResult q :
  let tr := option_list (hook_call error taskResult q) in
  invocations tr = [] /\ completed tr = [] /\ discarded tr = [].
Proof.
  unfold hook_call.
  destruct (Js.truthy error);
    [destruct (DeferQueue.onError q)|destruct (DeferQueue.taskCompleted q)]; done.
Qed.

(** What one step does to the pending order, the tasks in flight and the
    record of invocations, completions and discards: [started] are the
    tasks the executor hands to the worker during the step. *)
Lemma step_accounting q op :
  exists started,
    invocations (DeferQueue.trace (step q op)) =
      invocations (DeferQueue.trace q) ++ (DeferQueue.worker_call <$> started) /\
    completed (DeferQueue.trace (step q op)) =
      completed (DeferQueue.trace q) ++
      match op with
      | Settle i => option_list (DeferQueue.worker <$> in_flight q !! i)
      | _ => []
      end /\
    discarded (DeferQueue.trace (step q op)) =
      discarded (DeferQueue.trace q) ++ match op with Kill => pending q | _ => [] end /\
    match op with
    | Push task => pending q ++ [task]
    | Unshift task => task :: pending q
    | Kill => []
    | _ => pending q
    end = started ++ pending (step q op) /\
    in_flight (step q op) =
      match op with Settle i => delete i (in_flight q) | _ => in_flight q end ++ started.
Proof.
  unfold pending, in_flight.
  destruct op as [task|task| | | | |f|h|h|h|i]; unfold step;
    try (exists []; simpl; rewrite !app_nil_r; split_and!; done).
  - destruct (submit_spec DeferQueue.push _ task q (or_introl (conj eq_refl eq_refl)))
      as (_ & started & Ht & _ & ->).
    exists started. simpl. observe. rewrite !app_nil_r.
    split_and!; try reflexivity; exact Ht.
  - destruct (submit_spec DeferQueue.unshift _ task q (or_intror (conj eq_refl eq_refl)))
      as (_ & started & Ht & _ & ->).
    exists started. simpl. observe. rewrite !app_nil_r.
    split_and!; try reflexivity; exact Ht.
  - unfold DeferQueue.resume. rewrite on_fastQueue_unfold. unfold Fastq.resume.
    set (fq0 := Fastq.mk _ _ _ _ _).
    destruct (dispatch_spec fq0) as (Ht & Hr & He & _).
    match type of He with _ = Fastq.Work <$> ?st => exists st end.
    rewrite He, effect_event_work. simpl. observe.
    rewrite !app_nil_r. split_and!; first [reflexivity|exact Ht|exact Hr].
  - exists []. unfold DeferQueue.kill. rewrite on_fastQueue_unfold. simpl.
    destruct (DeferQueue.drainCallback q); simpl;
      rewrite invocations_app, completed_app, discarded_app; simpl;
      rewrite ?app_nil_r; (split_and!; try reflexivity);
      f_equal; unfold discarded; simpl; apply app_nil_r.
  - destruct (Fastq.running (DeferQueue.fastQueue q) !! i) as [cb|] eqn:Hi.
    + rewrite (settle_unfold i cb) by done. simpl.
      destruct (DeferQueue.worker cb) as [error taskResult]. simpl.
      rewrite on_fastQueue_unfold. simpl.
      rewrite notifier_fastQueue, notifier_trace. simpl.
      rewrite release_snd, release_fst.
      set (fq0 := Fastq.mk _ _ _ _ _).
      destruct (dispatch_spec fq0) as (Ht & Hr & He & _).
      match type of He with _ = Fastq.Work <$> ?st => exists st end.
      rewrite He, fmap_app, effect_event_work.
      observe. rewrite (proj1 (observe_hook_call _ _ _)),
        (proj1 (proj2 (observe_hook_call _ _ _))), (proj2 (proj2 (observe_hook_call _ _ _))).
      destruct (Fastq.idle _); simpl; rewrite ?app_nil_r;
        (split_and!; first [reflexivity|exact Ht|exact Hr]).
    + unfold DeferQueue.settle. rewrite Hi. exists [].
      rewrite (delete_absent _ _ Hi), !app_nil_r. done.
Qed.

Lemma invoked_snoc_started tr (started : list DeferCallback) :
  callee <$> (invocations tr ++ (DeferQueue.worker_call <$> started)) = invoked tr ++ started.
Proof.
  unfold invoked. rewrite fmap_app. f_equal.
  induction started as [|cb started IH]; [done|].
  rewrite !fmap_cons, callee_worker_call. by f_equal.
Qed.

Lemma submitted_snoc ops op :
  submitted (ops ++ [op]) =
  submitted ops ++ match op with Push task | Unshift task => [task] | _ => [] end.
Proof. unfold submitted. rewrite omap_app. by destruct op. Qed.



(** ** Size and idleness *)




Lemma isIdle_spec q :
  DeferQueue.isIdle q = true <-> length (pending q) = 0 /\ length (in_flight q) = 0.
Proof.
  unfold DeferQueue.isIdle, Fastq.idle, pending, in_flight.
  destruct (Fastq.running _), (Fastq.tasks _); simpl; split; try done; intros []; done.
Qed.



(** ** Order of execution *)

Lemma run_cons op ops q : run (op :: ops) q = run ops (step q op).
Proof. done. Qed.

Lemma unshifted_cons front task subs :
  unshifted ((front, task) :: subs) =
  if front then task :: unshifted subs else unshifted subs.
Proof. unfold unshifted. by destruct front. Qed.

Lemma pushed_cons front task subs :
  pushed ((front, task) :: subs) =
  if front then pushed subs else task :: pushed subs.
Proof. unfold pushed. by destruct front. Qed.

(** Submissions to a paused queue only extend its pending order:
    unshifted tasks pile up at the front, pushed tasks line up at the
    back, and nothing is handed to the worker. *)
Lemma run_submissions_paused subs q :
  Fastq.paused (DeferQueue.fastQueue q) = true ->
  let q1 := run (submission <$> subs) q in
  pending q1 = rev (unshifted subs) ++ pending q ++ pushed subs /\
  invocations (DeferQueue.trace q1) = invocations (DeferQueue.trace q) /\
  in_flight q1 = in_flight q /\
  Fastq.paused (DeferQueue.fastQueue q1) = true /\
  Fastq.concurrency (DeferQueue.fastQueue q1) = Fastq.concurrency (DeferQueue.fastQueue q).
Proof.
  revert q. induction subs as [|[front task] subs IH]; intros q Hpaused.
  - simpl. unfold pushed. simpl. by rewrite app_nil_r.
  - rewrite fmap_cons, run_cons, unshifted_cons, pushed_cons.
    cbn zeta.
    assert (Hstep : pending (step q (submission (front, task))) =
                      (if front then task :: pending q else pending q ++ [task]) /\
                    invocations (DeferQueue.trace (step q (submission (front, task)))) =
                      invocations (DeferQueue.trace q) /\
                    in_flight (step q (submission (front, task))) = in_flight q /\
                    Fastq.paused (DeferQueue.fastQueue (step q (submission (front, task)))) = true /\
                    Fastq.concurrency (DeferQueue.fastQueue (step q (submission (front, task)))) =
                      Fastq.concurrency (DeferQueue.fastQueue q)).
    { unfold pending, in_flight. destruct front;
        [change (step q (submission (true, task))) with (snd (DeferQueue.unshift task q))
        |change (step q (submission (false, task))) with (snd (DeferQueue.push task q))].
      - destruct (submit_spec DeferQueue.unshift _ task q (or_intror (conj eq_refl eq_refl)))
          as (_ & st & Ht & Hst & Hq).
        rewrite Hpaused in Hst. subst st. cbn [app] in Ht.
        remember (Fastq.tasks (DeferQueue.fastQueue (snd (DeferQueue.unshift task q)))) as ts eqn:E.
        clear E. subst ts.
        rewrite Hq. simpl. observe. rewrite !app_nil_r.
        split_and!; done.
      - destruct (submit_spec DeferQueue.push _ task q (or_introl (conj eq_refl eq_refl)))
          as (_ & st & Ht & Hst & Hq).
        rewrite Hpaused in Hst. subst st. cbn [app] in Ht.
        remember (Fastq.tasks (DeferQueue.fastQueue (snd (DeferQueue.push task q)))) as ts eqn:E.
        clear E. subst ts.
        rewrite Hq. simpl. observe. rewrite !app_nil_r.
        split_and!; done. }
    destruct Hstep as (Hp & Hi & Hr & Hpa & Hc).
    destruct (IH _ Hpa) as (IHp & IHi & IHr & IHpa & IHc).
    rewrite IHp, IHi, IHr, IHc, Hp, Hi, Hr, Hc.
    split_and!; try done.
    destruct front; simpl; by rewrite <- ?app_assoc.
Qed.

(** Resuming and settling hand the pending tasks to the worker from the
    front of the pending order: what was invoked since, followed by what
    is still pending, is the pending order one started from. *)
Lemma run_starts_in_order (ops : list Op) q :
  Forall (fun op => match op with Resume | Settle _ => True | _ => False end) ops ->
  exists started,
    invoked (DeferQueue.trace (run ops q)) = invoked (DeferQueue.trace q) ++ started /\
    pending q = started ++ pending (run ops q).
Proof.
  revert q. induction ops as [|op ops IH]; intros q Hops.
  - exists []. simpl. by rewrite app_nil_r.
  - apply Forall_cons in Hops as [Hop Hops]. rewrite run_cons.
    destruct (IH (step q op) Hops) as (st2 & Hi2 & Hp2).
    destruct (step_accounting q op) as (st1 & Hi1 & _ & _ & Hp1 & _).
    exists (st1 ++ st2). rewrite Hi2. unfold invoked at 1. rewrite Hi1.
    rewrite invoked_snoc_started, <- app_assoc. split; [done|].
    rewrite <- app_assoc, <- Hp2. by destruct op.
Qed.

(** What [resume] does: it starts as many pending tasks, from the front
    of the pending order, as there are free slots. *)
Lemma resume_spec q :
  let free := Fastq.concurrency (DeferQueue.fastQueue q) - length (in_flight q) in
  pending q = take free (pending q) ++ pending (DeferQueue.resume q) /\
  in_flight (DeferQueue.resume q) = in_flight q ++ take free (pending q) /\
  Fastq.paused (DeferQueue.fastQueue (DeferQueue.resume q)) = false /\
  Fastq.concurrency (DeferQueue.fastQueue (DeferQueue.resume q)) =
    Fastq.concurrency (DeferQueue.fastQueue q) /\
  invocations (DeferQueue.trace (DeferQueue.resume q)) =
    invocations (DeferQueue.trace q) ++ (DeferQueue.worker_call <$> take free (pending q)).
Proof.
  unfold DeferQueue.resume, pending, in_flight. rewrite on_fastQueue_unfold.
  unfold Fastq.resume, Fastq.dispatch.
  cbn [Fastq.paused Fastq.tasks Fastq.running Fastq.concurrency Fastq.drain fst snd
       DeferQueue.fastQueue DeferQueue.trace DeferQueue.log DeferQueue.set_fastQueue].
  rewrite effect_event_work. observe.
  split_and!; try done. by rewrite take_drop.
Qed.

Lemma settle_fastQueue i cb q :
  in_flight q !! i = Some cb ->
  DeferQueue.fastQueue (DeferQueue.settle i q) =
  fst (Fastq.release i (DeferQueue.fastQueue q)).
Proof.
  intros Hi. rewrite (settle_unfold i cb) by done.
  rewrite on_fastQueue_unfold.
  cbn [DeferQueue.fastQueue DeferQueue.log DeferQueue.set_fastQueue].
  by rewrite notifier_fastQueue.
Qed.

(** On a running queue with at least one slot, tasks wait only while
    others are in flight; and when the task in the first slot settles,
    there is one task less to be done. *)
Lemma settle_first_progress q :
  Fastq.paused (DeferQueue.fastQueue q) = false ->
  1 <= Fastq.concurrency (DeferQueue.fastQueue q) ->
  (in_flight q = [] -> pending q = []) ->
  let q' := DeferQueue.settle 0 q in
  Fastq.paused (DeferQueue.fastQueue q') = false /\
  Fastq.concurrency (DeferQueue.fastQueue q') = Fastq.concurrency (DeferQueue.fastQueue q) /\
  (in_flight q' = [] -> pending q' = []) /\
  length (in_flight q') + length (pending q') =
    pred (length (in_flight q) + length (pending q)).
Proof.
  intros Hpaused Hc Hinv q'. unfold q'.
  destruct (in_flight q) as [|cb rest] eqn:Hr.
  - assert (DeferQueue.settle 0 q = q) as ->
      by (unfold DeferQueue.settle; fold (in_flight q); by rewrite Hr).
    rewrite Hr, (Hinv eq_refl). done.
  - unfold pending, in_flight at 1 2.
    rewrite (settle_fastQueue 0 cb) by (by rewrite Hr).
    rewrite release_fst. fold (in_flight q). rewrite Hr. cbn [delete list_delete].
    set (fq0 := Fastq.mk _ _ _ _ _).
    destruct (dispatch_spec fq0) as (Ht & Hrun & _ & Hp & Hcc & _).
    cbn [fq0 Fastq.paused Fastq.tasks Fastq.running Fastq.concurrency] in Ht, Hrun, Hp, Hcc.
    rewrite Hpaused in Ht, Hrun, Hp.
    rewrite Hp, Hcc, Hrun. split; [done|]. split; [done|]. split.
    + intros [-> Hst]%app_eq_nil. simpl in Hst, Ht.
      rewrite Nat.sub_0_r in Hst, Ht. rewrite Hst in Ht. simpl in Ht.
      rewrite <- Ht. revert Hst. clear -Hc.
      destruct (Fastq.tasks (DeferQueue.fastQueue q)) as [|t ts]; [done|].
      destruct (Fastq.concurrency (DeferQueue.fastQueue q)); [lia|done].
    + apply (f_equal length) in Ht. rewrite length_app in *.
      unfold pending. simpl. lia.
Qed.

Lemma run_settle_first n q :
  Fastq.paused (DeferQueue.fastQueue q) = false ->
  1 <= Fastq.concurrency (DeferQueue.fastQueue q) ->
  (in_flight q = [] -> pending q = []) ->
  length (in_flight q) + length (pending q) <= n ->
  let q' := run (Settle <$> replicate n 0) q in
  in_flight q' = [] /\ pending q' = [].
Proof.
  revert q. induction n as [|n IH]; intros q Hpaused Hc Hinv Hn.
  - simpl. split; apply length_zero_iff_nil; lia.
  - destruct (settle_first_progress q Hpaused Hc Hinv) as (Hp' & Hc' & Hinv' & Hlen).
    cbn zeta.
    change (Settle <$> replicate (S n) 0) with (Settle 0 :: (Settle <$> replicate n 0)).
    rewrite run_cons. change (step q (Settle 0)) with (DeferQueue.settle 0 q).
    apply IH; try done; [by rewrite Hc'|lia].
Qed.




(** C8.  On a paused queue, after any series of [unshift] and [push]
    calls, the pending order is: the unshifted tasks, the last unshifted
    first, then the tasks that were pending before, then the pushed tasks
    in the order of the calls; none of them was invoked.  After [resume],
    however the tasks in flight settle, the worker invokes the tasks in
    that order: what was invoked since the pause, followed by what is
    still pending, is that order; and [resume] itself starts as many of
    them as there are free slots.  With a concurrency of at least 1, once
    as many tasks have settled as were in flight or pending, all of them
    were invoked, in that order, and the queue is idle. *)
Theorem unshifted_run_first_in_reverse
    (q : DeferQueue.t) (subs : list (bool * DeferCallback)) (settles : list nat) :
  Fastq.paused (DeferQueue.fastQueue q) = true ->
  let q1 := run (submission <$> subs) q in
  let q2 := run (Resume :: (Settle <$> settles)) q1 in
  let order := rev (unshifted subs) ++ pending q ++ pushed subs in
  let free := Fastq.concurrency (DeferQueue.fastQueue q) - length (in_flight q) in
  let q3 := run (Resume :: (Settle <$> replicate (length (in_flight q) + length order) 0)) q1 in
  pending q1 = order /\
  invoked (DeferQueue.trace q1) = invoked (DeferQueue.trace q) /\
  (exists started,
     invoked (DeferQueue.trace q2) = invoked (DeferQueue.trace q) ++ started /\
     started ++ pending q2 = order /\
     min free (length order) <= length started) /\
  (1 <= Fastq.concurrency (DeferQueue.fastQueue q) ->
   invoked (DeferQueue.trace q3) = invoked (DeferQueue.trace q) ++ order /\
   DeferQueue.isIdle q3 = true).
Proof.
  intros Hpaused q1 q2 order free q3.
  destruct (run_submissions_paused subs q Hpaused) as (Hp & Hi & Hr & _ & Hc).
  fold q1 in Hp, Hi, Hr, Hc. fold order in Hp.
  assert (Hinv : invoked (DeferQueue.trace q1) = invoked (DeferQueue.trace q))
    by (unfold invoked; by rewrite Hi).
  destruct (resume_spec q1) as (Ht & Hrun & Hpa & Hcc & Hinvr).
  rewrite Hp, Hr, Hc in Ht, Hrun, Hinvr. rewrite Hc in Hcc. fold free in Ht, Hrun, Hinvr.
  assert (Hinvoked : invoked (DeferQueue.trace (DeferQueue.resume q1)) =
                     invoked (DeferQueue.trace q) ++ take free order).
  { unfold invoked at 1. by rewrite Hinvr, invoked_snoc_started, Hinv. }
  assert (Hmain : forall settles,
    exists started,
      invoked (DeferQueue.trace (run (Resume :: (Settle <$> settles)) q1)) =
        invoked (DeferQueue.trace q) ++ started /\
      started ++ pending (run (Resume :: (Settle <$> settles)) q1) = order /\
      min free (length order) <= length started).
  { intros settles'. rewrite run_cons.
    change (step q1 Resume) with (DeferQueue.resume q1).
    destruct (run_starts_in_order (Settle <$> settles') (DeferQueue.resume q1))
      as (st2 & Hi2 & Hp2).
    { apply Forall_fmap, Forall_forall. by intros. }
    exists (take free order ++ st2). rewrite Hi2, Hinvoked, <- !app_assoc.
    split; [done|]. rewrite <- Hp2, <- Ht. split; [done|].
    rewrite length_app, length_take. lia. }
  split; [done|]. split; [done|]. split; [apply Hmain|].
  intros Hconc.
  destruct (Hmain (replicate (length (in_flight q) + length order) 0))
    as (started & Hstarted & Horder & _).
  fold q3 in Hstarted, Horder.
  assert (Hdone : in_flight q3 = [] /\ pending q3 = []).
  { unfold q3. rewrite run_cons. change (step q1 Resume) with (DeferQueue.resume q1).
    apply run_settle_first.
    - done.
    - by rewrite Hcc.
    - rewrite Hrun. intros [E1 E2]%app_eq_nil.
      rewrite E2 in Ht. simpl in Ht. rewrite <- Ht.
      unfold free in E2. rewrite E1 in E2. simpl in E2. rewrite Nat.sub_0_r in E2.
      revert E2. clear -Hconc.
      destruct order as [|t ts]; [done|].
      destruct (Fastq.concurrency (DeferQueue.fastQueue q)); [lia|done].
    - rewrite Hrun, length_app.
      pose proof (f_equal length Ht) as Hlen. rewrite length_app in Hlen. lia. }
  destruct Hdone as [Hfl Hpe]. rewrite Hpe, app_nil_r in Horder. subst started.
  split; [done|]. apply isIdle_spec. by rewrite Hfl, Hpe.
Qed.

(** C8 on a history like that of the repository's test of [unshift],
    with concurrency 1: pause, unshift [sendEmail], push [report],
    unshift [createInvoice], resume, and let three tasks settle: the
    worker invokes [createInvoice], [sendEmail] and then [report]. *)
Lemma unshifted_run_first_in_reverse_witness :
  let sendEmail := Callback "sendEmail" (Returns (Js.object [("sent", Js.boolean true)])) in
  let createInvoice := Callback "createInvoice" (Returns (Js.object [("created", Js.boolean true)])) in
  let report := Task "report" (Returns Js.undefined) in
  let q := run [Pause] (DeferQueue.new 0 (Some {| concurrency := Some 1 |})) in
  let subs := [(true, sendEmail); (false, report); (true, createInvoice)] in
  let q3 := run (Resume :: (Settle <$> [0; 0; 0])) (run (submission <$> subs) q) in
  pending (run (submission <$> subs) q) = [createInvoice; sendEmail; report] /\
  invoked (DeferQueue.trace q3) = [createInvoice; sendEmail; report] /\
  DeferQueue.isIdle q3 = true.
Proof.
  intros sendEmail createInvoice report q subs q3.
  destruct (unshifted_run_first_in_reverse q subs [0; 0; 0] eq_refl) as (Hp & _ & _ & Hall).
  destruct Hall as [Hinvoked Hidle]; [simpl; lia|].
  split; [exact Hp|]. split; [exact Hinvoked|exact Hidle].
Defined.

(** ** Normalisation of tasks *)



(** ** Killing the queue *)

Lemma kill_unfold q :
  DeferQueue.kill q =
  DeferQueue.mk (DeferQueue.this q) (DeferQueue.drainCallback q)
    (Fastq.mk [] (in_flight q) (Fastq.paused (DeferQueue.fastQueue q))
       (Fastq.concurrency (DeferQueue.fastQueue q)) (slot_of (DeferQueue.drainCallback q)))
    (DeferQueue.notifiers q) (DeferQueue.onError q) (DeferQueue.taskCompleted q)
    (DeferQueue.taskAdded q) (DeferQueue.deferreds q)
    (DeferQueue.trace q ++ [Discard (pending q); Drained (DeferQueue.drained q)]).
Proof.
  unfold DeferQueue.kill, in_flight, pending, DeferQueue.drained.
  rewrite on_fastQueue_unfold.
  destruct q as [this drainCallback fq waiting h1 h2 h3 heap tr]. simpl.
  by destruct drainCallback.
Qed.

Lemma run_app ops1 ops2 q : run (ops1 ++ ops2) q = run ops2 (run ops1 q).
Proof. apply foldl_app. Qed.

Lemma drain_calls_app tr1 tr2 : drain_calls (tr1 ++ tr2) = drain_calls tr1 ++ drain_calls tr2.
Proof. apply omap_app. Qed.

Lemma drain_calls_started (started : list DeferCallback) :
  drain_calls (DeferQueue.effect_event <$> (Fastq.Work <$> started)) = [].
Proof. induction started; done. Qed.

(** Whatever a step calls as drain callback is what the drain slot held
    before the step. *)
Lemma step_drain_calls q op :
  exists emitted,
    DeferQueue.trace (step q op) = DeferQueue.trace q ++ emitted /\
    Forall (eq (DeferQueue.drained q)) (drain_calls emitted).
Proof.
  unfold DeferQueue.drained.
  destruct op as [task|task| | | | |f|h|h|h|i]; unfold step;
    try (exists []; simpl; by rewrite app_nil_r).
  - destruct (submit_spec DeferQueue.push _ task q (or_introl (conj eq_refl eq_refl)))
      as (_ & started & _ & _ & ->).
    eexists. split; [reflexivity|].
    rewrite drain_calls_app, <- effect_event_work, drain_calls_started.
    by destruct (DeferQueue.taskAdded q).
  - destruct (submit_spec DeferQueue.unshift _ task q (or_intror (conj eq_refl eq_refl)))
      as (_ & started & _ & _ & ->).
    eexists. split; [reflexivity|].
    rewrite drain_calls_app, <- effect_event_work, drain_calls_started.
    by destruct (DeferQueue.taskAdded q).
  - unfold DeferQueue.resume. rewrite on_fastQueue_unfold. unfold Fastq.resume.
    eexists. split; [reflexivity|].
    rewrite (proj1 (proj2 (proj2 (dispatch_spec _)))). by rewrite drain_calls_started.
  - rewrite kill_unfold. eexists. split; [reflexivity|]. by repeat constructor.
  - destruct (Fastq.running (DeferQueue.fastQueue q) !! i) as [cb|] eqn:Hi.
    + rewrite (settle_unfold i cb) by done.
      destruct (DeferQueue.worker cb) as [error taskResult]. simpl.
      rewrite on_fastQueue_unfold.
      cbn [DeferQueue.trace DeferQueue.fastQueue DeferQueue.log DeferQueue.set_fastQueue].
      rewrite notifier_trace, release_snd, drain_release, notifier_fastQueue.
      cbn [DeferQueue.trace DeferQueue.fastQueue DeferQueue.log].
      rewrite (proj1 (proj2 (proj2 (dispatch_spec _)))).
      eexists. split; [rewrite <- !app_assoc; reflexivity|].
      rewrite !drain_calls_app, fmap_app, drain_calls_app, drain_calls_started.
      assert (drain_calls (option_list (hook_call error taskResult
                (DeferQueue.log [Done error taskResult] q))) = []) as ->.
      { unfold hook_call. simpl. destruct (Js.truthy error);
          [destruct (DeferQueue.onError q)|destruct (DeferQueue.taskCompleted q)]; done. }
      assert (drain_calls (option_list ((fun d => Resolve d (outcome (error, taskResult))) <$>
                head (DeferQueue.notifiers (DeferQueue.log [Done error taskResult] q)))) = []) as ->.
      { by destruct (head _). }
      destruct (Fastq.idle _); simpl; by repeat constructor.
    + unfold DeferQueue.settle. rewrite Hi. exists []. by rewrite app_nil_r.
Qed.

(** C4.  In every state a history leads to, [kill()] empties the pending
    order, so that [size()] is 0 right after it; during the call the
    executor reports the discarded tasks and calls the drain slot exactly
    once, and the slot holds the callback the caller assigned last
    (whether or not tasks were pending); after the call the slot, which
    the executor reset, holds that callback again; and however the
    history goes on, what a later step calls as drain callback is the
    callback assigned last. *)
Theorem kill_discards_drains_restores
    (self : QueueRef) (options : option QueueOptions) (ops : list Op) :
  let q := run ops (DeferQueue.new self options) in
  let q' := DeferQueue.kill q in
  let during := drop (length (DeferQueue.trace q)) (DeferQueue.trace q') in
  DeferQueue.size q' = 0 /\
  DeferQueue.trace q' = DeferQueue.trace q ++ during /\
  during = [Discard (Fastq.tasks (DeferQueue.fastQueue q));
            Drained (slot_of (last_drained ops))] /\
  drain_calls during = [slot_of (last_drained ops)] /\
  DeferQueue.drained q' = slot_of (last_drained ops) /\
  DeferQueue.drainCallback q' = last_drained ops /\
  Fastq.drain (fst (Fastq.killAndDrain (DeferQueue.fastQueue q))) = Fastq.noop /\
  forall (later : list Op) (op : Op),
    let q'' := run later q' in
    exists emitted,
      DeferQueue.trace (step q'' op) = DeferQueue.trace q'' ++ emitted /\
      Forall (eq (slot_of (last_drained (ops ++ Kill :: later)))) (drain_calls emitted).
Proof.
  intros q q' during.
  destruct (drain_slot_run self options ops) as [H1 H2]. fold q in H1, H2.
  unfold DeferQueue.drained in H2.
  split_and!.
  8:{ intros later op q''.
      destruct (drain_slot_run self options (ops ++ Kill :: later)) as [_ H3].
      rewrite run_app in H3. change (run (Kill :: later) (run ops (DeferQueue.new self options)))
        with q'' in H3.
      rewrite <- H3. apply step_drain_calls. }
  all: unfold during, q', DeferQueue.kill;
    rewrite ?on_fastQueue_unfold; simpl; rewrite ?H1, ?H2;
    destruct (last_drained ops); simpl; rewrite ?drop_app_length'; done.
Qed.

(** ** After a kill *)


Lemma last_drained_app_quiet ops later :
  omap (fun op => match op with SetDrained callback => Some callback | _ => None end) later = [] ->
  last_drained (ops ++ later) = last_drained ops.
Proof. intros H. unfold last_drained. by rewrite omap_app, H, app_nil_r. Qed.




(** * Further properties *)

(** ** What a step does *)

Lemma step_trace q op :
  exists started,
    DeferQueue.trace (step q op) = DeferQueue.trace q ++ step_events q op started /\
    match op with
    | Push task => pending q ++ [task]
    | Unshift task => task :: pending q
    | Kill => []
    | _ => pending q
    end = started ++ pending (step q op) /\
    in_flight (step q op) =
      match op with Settle i => delete i (in_flight q) | _ => in_flight q end ++ started.
Proof.
  unfold step_events, pending, in_flight.
  destruct op as [task|task| | | | |f|h|h|h|i]; unfold step;
    try (exists []; simpl; rewrite !app_nil_r; split_and!; done).
  - destruct (submit_spec DeferQueue.push _ task q (or_introl (conj eq_refl eq_refl)))
      as (_ & started & Ht & _ & Hq).
    exists started. split_and!; [by rewrite Hq|exact Ht|by rewrite Hq].
  - destruct (submit_spec DeferQueue.unshift _ task q (or_intror (conj eq_refl eq_refl)))
      as (_ & started & Ht & _ & Hq).
    exists started. split_and!; [by rewrite Hq|exact Ht|by rewrite Hq].
  - destruct (resume_spec q) as (Ht & Hr & _ & _ & _).
    eexists. split_and!; [|exact Ht|exact Hr].
    unfold DeferQueue.resume. rewrite on_fastQueue_unfold. unfold Fastq.resume.
    rewrite (proj1 (proj2 (proj2 (dispatch_spec _)))), effect_event_work. done.
  - exists []. rewrite kill_unfold. simpl. by rewrite app_nil_r.
  - fold (in_flight q). destruct (in_flight q !! i) as [cb|] eqn:Hi.
    + pose proof (settle_fastQueue i cb q Hi) as Hfq.
      unfold DeferQueue.isIdle. rewrite Hfq.
      rewrite (settle_unfold i cb) by done.
      rewrite on_fastQueue_unfold.
      cbn [DeferQueue.trace DeferQueue.fastQueue DeferQueue.log DeferQueue.set_fastQueue].
      rewrite notifier_trace, release_snd, drain_release, notifier_fastQueue.
      cbn [DeferQueue.trace DeferQueue.fastQueue DeferQueue.log DeferQueue.notifiers].
      rewrite release_fst.
      set (fq0 := Fastq.mk _ _ _ _ _).
      destruct (dispatch_spec fq0) as (Ht & Hr & He & _).
      match type of He with _ = Fastq.Work <$> ?st => exists st end.
      rewrite He, fmap_app, effect_event_work.
      split_and!; [|exact Ht|exact Hr].
      rewrite <- !app_assoc. simpl.
      unfold hook_call, DeferQueue.drained. simpl.
      by destruct (Fastq.idle _).
    + unfold DeferQueue.settle. fold (in_flight q). rewrite Hi. exists [].
      rewrite (delete_absent _ _ Hi), !app_nil_r. done.
Qed.

(** Only an assignment changes a hook field. *)
Lemma step_hooks q op :
  DeferQueue.taskAdded (step q op) =
    match op with SetTaskAdded hook => hook | _ => DeferQueue.taskAdded q end /\
  DeferQueue.onError (step q op) =
    match op with SetOnError hook => hook | _ => DeferQueue.onError q end /\
  DeferQueue.taskCompleted (step q op) =
    match op with SetTaskCompleted hook => hook | _ => DeferQueue.taskCompleted q end.
Proof.
  destruct op as [task|task| | | | |f|h|h|h|i]; unfold step; try done.
  - destruct (submit_spec DeferQueue.push _ task q (or_introl (conj eq_refl eq_refl)))
      as (_ & started & _ & _ & ->). done.
  - destruct (submit_spec DeferQueue.unshift _ task q (or_intror (conj eq_refl eq_refl)))
      as (_ & started & _ & _ & ->). done.
  - by rewrite kill_unfold.
  - unfold DeferQueue.settle.
    destruct (_ !! i) as [cb|]; [|done].
    destruct (DeferQueue.worker cb) as [error taskResult].
    rewrite on_fastQueue_unfold, notifier_unfold.
    by destruct (head _).
Qed.

(** What a step does to the waiting list and to the [Deferred] objects. *)
Lemma step_waiting q op :
  DeferQueue.notifiers (step q op) =
    match op with
    | CreateNotifier => DeferQueue.notifiers q ++ [length (DeferQueue.deferreds q)]
    | Settle i =>
        match in_flight q !! i with
        | Some _ => tail (DeferQueue.notifiers q)
        | None => DeferQueue.notifiers q
        end
    | _ => DeferQueue.notifiers q
    end /\
  DeferQueue.deferreds (step q op) =
    match op with
    | CreateNotifier => DeferQueue.deferreds q ++ [Deferred.Pending]
    | Settle i =>
        match in_flight q !! i, head (DeferQueue.notifiers q) with
        | Some cb, Some d =>
            Deferred.resolve d (outcome (DeferQueue.worker cb)) (DeferQueue.deferreds q)
        | _, _ => DeferQueue.deferreds q
        end
    | _ => DeferQueue.deferreds q
    end.
Proof.
  destruct op as [task|task| | | | |f|h|h|h|i]; unfold step; try done.
  - destruct (submit_spec DeferQueue.push _ task q (or_introl (conj eq_refl eq_refl)))
      as (_ & started & _ & _ & ->). done.
  - destruct (submit_spec DeferQueue.unshift _ task q (or_intror (conj eq_refl eq_refl)))
      as (_ & started & _ & _ & ->). done.
  - by rewrite kill_unfold.
  - unfold DeferQueue.settle. fold (in_flight q).
    destruct (in_flight q !! i) as [cb|]; [|done].
    unfold outcome. destruct (DeferQueue.worker cb) as [error taskResult].
    rewrite on_fastQueue_unfold, notifier_unfold.
    by destruct (head _).
Qed.

(** The entries for the tasks handed to the worker are seen by no
    observation other than that of the invocations. *)
Lemma omap_runs {B} (f : Event -> option B) (started : list DeferCallback) :
  (forall call, f (Invoke call) = None) ->
  omap f ((fun cb => Invoke (DeferQueue.worker_call cb)) <$> started) = [].
Proof.
  intros Hf. induction started as [|cb started IH]; [done|].
  rewrite fmap_cons. cbn [omap list_omap]. by rewrite Hf.
Qed.

(** What the observations see of the calls of a step. *)
Lemma step_events_observed q op started :
  resolve_calls (step_events q op started) =
    match op with
    | Settle i =>
        match in_flight q !! i with
        | Some cb =>
            option_list ((fun d => (d, outcome (DeferQueue.worker cb)))
                           <$> head (DeferQueue.notifiers q))
        | None => []
        end
    | _ => []
    end /\
  rejections (step_events q op started) = [] /\
  added_calls (step_events q op started) =
    match op with
    | Push task | Unshift task =>
        option_list ((fun f => (f, task)) <$> DeferQueue.taskAdded q)
    | _ => []
    end /\
  outcome_hook_calls (step_events q op started) =
    match op with
    | Settle i =>
        match in_flight q !! i with
        | Some cb =>
            option_list (hook_call (fst (DeferQueue.worker cb)) (snd (DeferQueue.worker cb)) q)
        | None => []
        end
    | _ => []
    end.
Proof.
  unfold resolve_calls, rejections, added_calls, outcome_hook_calls.
  destruct op as [task|task| | | | |f|h|h|h|i]; cbn [step_events]; try done.
  - rewrite !omap_app, !omap_runs by done.
    destruct (DeferQueue.taskAdded q); done.
  - rewrite !omap_app, !omap_runs by done.
    destruct (DeferQueue.taskAdded q); done.
  - rewrite !omap_runs by done. done.
  - destruct (in_flight q !! i) as [cb|]; [|done].
    rewrite !omap_app, !omap_runs by done.
    unfold hook_call.
    destruct (DeferQueue.isIdle _), (head _), (Js.truthy _),
      (DeferQueue.onError q), (DeferQueue.taskCompleted q); done.
Qed.

Lemma resolve_calls_app tr1 tr2 :
  resolve_calls (tr1 ++ tr2) = resolve_calls tr1 ++ resolve_calls tr2.
Proof. apply omap_app. Qed.

Lemma rejections_app tr1 tr2 : rejections (tr1 ++ tr2) = rejections tr1 ++ rejections tr2.
Proof. apply omap_app. Qed.

Lemma added_calls_app tr1 tr2 : added_calls (tr1 ++ tr2) = added_calls tr1 ++ added_calls tr2.
Proof. apply omap_app. Qed.

Lemma outcome_hook_calls_app tr1 tr2 :
  outcome_hook_calls (tr1 ++ tr2) = outcome_hook_calls tr1 ++ outcome_hook_calls tr2.
Proof. apply omap_app. Qed.

(** ** The ledger of the notifiers *)

Lemma ledger_ok_new self options : ledger_ok (DeferQueue.new self options).
Proof. split; done. Qed.

Lemma ledger_ok_step q op : ledger_ok q -> ledger_ok (step q op).
Proof.
  intros [H1 H2 H3 H4 H5].
  destruct (step_trace q op) as (started & Htr & _ & _).
  destruct (step_events_observed q op started) as (Hres & Hrej & _ & _).
  destruct (step_accounting q op) as (_ & _ & Hc & _).
  destruct (step_waiting q op) as [Hn Hd].
  assert (Hlen : length (DeferQueue.deferreds q) =
                 length (resolve_calls (DeferQueue.trace q)) + length (DeferQueue.notifiers q)).
  { rewrite H3 at 1. by rewrite length_app, !length_fmap, length_replicate. }
  assert (Hquiet : resolve_calls (step_events q op started) = [] ->
                   DeferQueue.notifiers (step q op) = DeferQueue.notifiers q ->
                   DeferQueue.deferreds (step q op) = DeferQueue.deferreds q ->
                   ledger_ok (step q op)).
  { intros E1 E2 E3.
    split; rewrite ?Hc, ?Htr, ?resolve_calls_app, ?rejections_app, ?E1, ?E2, ?E3, ?Hrej,
      ?app_nil_r; try done.
    rewrite fmap_app. by apply sublist_inserts_r. }
  destruct op as [task|task| | | | |f|h|h|h|i]; try (by apply Hquiet).
  - clear Hquiet.
    split; rewrite ?Hc, ?Htr, ?resolve_calls_app, ?rejections_app, ?Hres, ?Hrej, ?Hn, ?Hd,
      ?app_nil_r; try done.
    + rewrite length_app, Hlen. cbn [length]. rewrite Nat.add_1_r, seq_S. by f_equal.
    + rewrite length_app. cbn [length]. rewrite Nat.add_1_r, replicate_S_end, app_assoc.
      by f_equal.
  - destruct (in_flight q !! i) as [cb|]; [|by apply Hquiet].
    destruct (DeferQueue.notifiers q) as [|d waiting] eqn:Hw.
    { apply Hquiet; [done|by rewrite Hn|by rewrite Hd]. }
    clear Hquiet. cbn [head tail option_list fmap option_fmap option_map length] in *.
    injection H2 as -> H2.
    split; rewrite ?Hc, ?Htr, ?resolve_calls_app, ?rejections_app, ?Hres, ?Hrej, ?Hn, ?Hd,
      ?app_nil_r; try done.
    + rewrite fmap_app, length_app, H1. cbn [length]. by rewrite Nat.add_1_r, seq_S.
    + rewrite length_app. cbn [length]. by rewrite Nat.add_1_r.
    + rewrite H3. unfold Deferred.resolve.
      set (resolved := Deferred.Resolved <$> _).
      assert (Hk : length resolved = length (resolve_calls (DeferQueue.trace q)))
        by (unfold resolved; by rewrite !length_fmap).
      rewrite lookup_app_r, Hk, Nat.sub_diag by lia. cbn [replicate lookup list_lookup].
      rewrite insert_app_r_alt, Hk, Nat.sub_diag by lia.
      rewrite !fmap_app, <- app_assoc. done.
    + rewrite !fmap_app. apply sublist_app; [done|]. cbn. done.
Qed.

Lemma ledger_ok_run ops q : ledger_ok q -> ledger_ok (run ops q).
Proof.
  revert q. induction ops as [|op ops IH]; intros q H; [done|].
  apply IH. by apply ledger_ok_step.
Qed.

(** X1.  In every state a history leads to, the notifiers are settled
    oldest first: [resolve] was called on the [k] notifiers created
    first, once each and in the order of their creation; these hold the
    values [resolve] was called with, every notifier created later is
    pending, and the waiting list is made of exactly those, in the order
    of their creation.  [reject] is never called, so that no promise
    handed out by [createNotifier] ever rejects. *)
Theorem notifiers_settle_oldest_first
    (self : QueueRef) (options : option QueueOptions) (ops : list Op) :
  let q := run ops (DeferQueue.new self options) in
  let calls := resolve_calls (DeferQueue.trace q) in
  let waiting := DeferQueue.notifiers q in
  calls.*1 = seq 0 (length calls) /\
  waiting = seq (length calls) (length waiting) /\
  DeferQueue.deferreds q =
    (Deferred.Resolved <$> calls.*2) ++ replicate (length waiting) Deferred.Pending /\
  rejections (DeferQueue.trace q) = [].
Proof.
  intros q calls waiting.
  destruct (ledger_ok_run ops _ (ledger_ok_new self options)) as [H1 H2 H3 H4 _].
  done.
Qed.

Lemma settled_values_ledger (values : list PromiseSettledResult) (m : nat) :
  settled_values ((Deferred.Resolved <$> values) ++ replicate m Deferred.Pending) = values.
Proof.
  unfold settled_values. rewrite omap_app.
  assert (omap (fun deferred => match deferred with
                                | Deferred.Resolved value => Some value
                                | _ => None
                                end) (replicate m Deferred.Pending) = []) as ->
    by (induction m; done).
  rewrite app_nil_r. induction values as [|v values IH]; [done|].
  rewrite fmap_cons. cbn [omap list_omap]. by rewrite IH.
Qed.

(** X2.  In every state a history leads to, the values held by the
    settled notifiers, oldest notifier first, are outcomes of completed
    tasks, in the order in which the tasks completed: a completion is
    reported to at most one notifier, and a notifier created earlier
    never gets a later completion than one created after it. *)
Theorem notifiers_hold_outcomes_in_order
    (self : QueueRef) (options : option QueueOptions) (ops : list Op) :
  let q := run ops (DeferQueue.new self options) in
  settled_values (DeferQueue.deferreds q)
    `sublist_of` (outcome <$> completed (DeferQueue.trace q)) /\
  length (settled_values (DeferQueue.deferreds q)) <= length (completed (DeferQueue.trace q)).
Proof.
  intros q.
  destruct (ledger_ok_run ops _ (ledger_ok_new self options)) as [_ _ H3 _ H5].
  fold q in H3, H5. rewrite H3, settled_values_ledger.
  split; [done|].
  apply sublist_length in H5. by rewrite (length_fmap outcome) in H5.
Qed.

(** ** The hooks over a history *)

Lemma run_hooks ops q :
  forallb keeps_hooks ops = true ->
  DeferQueue.taskAdded (run ops q) = DeferQueue.taskAdded q /\
  DeferQueue.onError (run ops q) = DeferQueue.onError q /\
  DeferQueue.taskCompleted (run ops q) = DeferQueue.taskCompleted q.
Proof.
  induction ops as [|op ops IH] using rev_ind; [done|].
  rewrite forallb_app. cbn [forallb]. rewrite andb_true_r.
  intros [Hops Hop]%andb_prop. rewrite run_snoc.
  destruct (IH Hops) as (IH1 & IH2 & IH3).
  destruct (step_hooks (run ops q) op) as (H1 & H2 & H3).
  rewrite H1, H2, H3, <- IH1, <- IH2, <- IH3.
  by destruct op.
Qed.

(** X3.  Over any history that does not assign a hook, from any state:
    [taskAdded], if assigned, is called exactly once for every [push]
    and [unshift], in the order of the calls and with the task as it was
    submitted, and for nothing else -- not when a task starts, completes
    or is discarded. *)
Theorem taskAdded_called_once_per_submission (q : DeferQueue.t) (ops : list Op) :
  forallb keeps_hooks ops = true ->
  added_calls (DeferQueue.trace (run ops q)) =
    added_calls (DeferQueue.trace q) ++
    match DeferQueue.taskAdded q with
    | Some hook => (fun task => (hook, task)) <$> submitted ops
    | None => []
    end.
Proof.
  induction ops as [|op ops IH] using rev_ind.
  { intros _. simpl. by destruct (DeferQueue.taskAdded q); rewrite app_nil_r. }
  rewrite forallb_app. cbn [forallb]. rewrite andb_true_r.
  intros [Hops Hop]%andb_prop. rewrite run_snoc, submitted_snoc.
  destruct (step_trace (run ops q) op) as (started & -> & _ & _).
  destruct (step_events_observed (run ops q) op started) as (_ & _ & Ha & _).
  rewrite added_calls_app, Ha, (IH Hops), (proj1 (run_hooks ops q Hops)), <- app_assoc.
  f_equal.
  destruct (DeferQueue.taskAdded q) as [hook|]; [|by destruct op].
  rewrite fmap_app. by destruct op.
Qed.

(** X3 on a history of the kind the tests use: the hook is assigned
    first, then tasks are submitted and run. *)
Lemma taskAdded_called_once_per_submission_witness :
  let sendEmail := Callback "sendEmail" (Returns Js.undefined) in
  let report := Task "report" (Throws (Js.Error "boom")) in
  let q := run [SetTaskAdded (Some 7)] (DeferQueue.new 0 None) in
  added_calls (DeferQueue.trace
    (run [Pause; Push sendEmail; Unshift report; Kill; Push report; Resume; Settle 0] q)) =
  [(7, sendEmail); (7, report); (7, report)].
Proof.
  intros sendEmail report q.
  exact (taskAdded_called_once_per_submission q
           [Pause; Push sendEmail; Unshift report; Kill; Push report; Resume; Settle 0]
           eq_refl).
Defined.

Lemma hook_call_hooks error taskResult q q' :
  DeferQueue.onError q' = DeferQueue.onError q ->
  DeferQueue.taskCompleted q' = DeferQueue.taskCompleted q ->
  hook_call error taskResult q' = hook_call error taskResult q.
Proof. unfold hook_call. by intros -> ->. Qed.

(** X4.  Over any history that does not assign a hook, from any state:
    the calls made to [onError] and [taskCompleted] are, in order, one
    for each task that completes -- the hook for its outcome, if it is
    assigned, with the arguments [#notifier] received -- and no others:
    in particular none for a task that is pending, in flight, or
    discarded by a kill. *)
Theorem outcome_hooks_called_once_per_completion (q : DeferQueue.t) (ops : list Op) :
  forallb keeps_hooks ops = true ->
  exists finished,
    completed (DeferQueue.trace (run ops q)) = completed (DeferQueue.trace q) ++ finished /\
    outcome_hook_calls (DeferQueue.trace (run ops q)) =
      outcome_hook_calls (DeferQueue.trace q)
        ++ omap (fun c => hook_call (fst c) (snd c) q) finished.
Proof.
  induction ops as [|op ops IH] using rev_ind.
  { intros _. exists []. simpl. by rewrite !app_nil_r. }
  rewrite forallb_app. cbn [forallb]. rewrite andb_true_r.
  intros [Hops Hop]%andb_prop. rewrite run_snoc.
  destruct (IH Hops) as (finished & IHc & IHh).
  destruct (run_hooks ops q Hops) as (_ & He & Hc).
  destruct (step_accounting (run ops q) op) as (_ & _ & -> & _).
  destruct (step_trace (run ops q) op) as (started & -> & _ & _).
  destruct (step_events_observed (run ops q) op started) as (_ & _ & _ & Hh).
  rewrite outcome_hook_calls_app, Hh, IHc, IHh, <- !app_assoc.
  eexists. split; [reflexivity|]. rewrite omap_app. do 2 f_equal.
  destruct op as [task|task| | | | |f|h|h|h|i]; try done.
  destruct (in_flight (run ops q) !! i) as [cb|]; [|done].
  cbn [fmap option_fmap option_map option_list omap list_omap].
  rewrite (hook_call_hooks _ _ q (run ops q)) by done.
  simpl. by destruct (hook_call _ _ q).
Qed.

(** X4 where one task succeeds, one fails and one is discarded. *)
Lemma outcome_hooks_called_once_per_completion_witness :
  let sendEmail := Callback "sendEmail" (Returns (Js.number 1)) in
  let report := Task "report" (Rejects (Js.Error "boom")) in
  let q := run [SetOnError (Some 4); SetTaskCompleted (Some 5)]
             (DeferQueue.new 0 (Some {| concurrency := Some 1 |})) in
  outcome_hook_calls (DeferQueue.trace
    (run [Push sendEmail; Push report; Push sendEmail; Settle 0; Kill; Settle 0] q)) =
  [TaskCompleted 5 (TaskResult.make "sendEmail" (Some (Js.number 1)));
   OnError 4 (Js.Error "boom") (TaskResult.make "report" None)].
Proof.
  intros sendEmail report q.
  destruct (outcome_hooks_called_once_per_completion q
              [Push sendEmail; Push report; Push sendEmail; Settle 0; Kill; Settle 0] eq_refl)
    as (finished & Hfinished & ->).
  cbv in Hfinished. subst finished. reflexivity.
Defined.

(** ** Every task exactly once *)

Lemma run_accounting_tasks self options ops :
  let q := run ops (DeferQueue.new self options) in
  submitted ops ≡ₚ invoked (DeferQueue.trace q) ++ pending q ++ discarded (DeferQueue.trace q) /\
  DeferQueue.worker <$> invoked (DeferQueue.trace q) ≡ₚ
    completed (DeferQueue.trace q) ++ (DeferQueue.worker <$> in_flight q).
Proof.
  induction ops as [|op ops [IH1 IH2]] using rev_ind; [done|].
  cbn zeta in *. rewrite run_snoc, submitted_snoc.
  set (q := run ops (DeferQueue.new self options)) in *.
  destruct (step_accounting q op) as (started & Hi & Hc & Hd & Hp & Hr).
  unfold invoked at 1 2. rewrite Hi, Hc, Hd, Hr, invoked_snoc_started.
  split.
  - rewrite IH1.
    destruct op as [task|task| | | | |f|h|h|h|i];
      rewrite ?app_nil_r, <- ?app_assoc; try (by rewrite (app_assoc started), <- Hp).
    + rewrite (app_assoc started), <- Hp, <- !app_assoc.
      do 2 apply Permutation_app_head. apply Permutation_app_comm.
    + rewrite (app_assoc started), <- Hp.
      apply Permutation_app_head. rewrite app_assoc. symmetry.
      apply Permutation_cons_append.
    + symmetry in Hp. apply app_eq_nil in Hp as [-> ->].
      apply Permutation_app_head. cbn [app]. apply Permutation_app_comm.
  - rewrite !fmap_app, IH2.
    destruct op as [task|task| | | | |f|h|h|h|i];
      rewrite ?app_nil_r, <- ?app_assoc; try done.
    destruct (in_flight q !! i) as [cb|] eqn:Hlook.
    + by rewrite (delete_Permutation _ _ _ Hlook) at 1.
    + by rewrite (delete_absent _ _ Hlook).
Qed.

(** X5.  In every state a history leads to, no task is lost and none is
    run or reported twice: the tasks submitted are, up to their order,
    those handed to the worker, those still pending and those a kill
    discarded; and the tasks handed to the worker are, up to their
    order, those whose completion was reported with [done] -- with the
    arguments the worker builds for them -- and those still in flight. *)
Theorem every_task_accounted_for_once
    (self : QueueRef) (options : option QueueOptions) (ops : list Op) :
  let q := run ops (DeferQueue.new self options) in
  submitted ops ≡ₚ invoked (DeferQueue.trace q) ++ pending q ++ discarded (DeferQueue.trace q) /\
  DeferQueue.worker <$> invoked (DeferQueue.trace q) ≡ₚ
    completed (DeferQueue.trace q) ++ (DeferQueue.worker <$> in_flight q).
Proof. apply run_accounting_tasks. Qed.

(** ** The executor over a history *)

(** What a step does to [#fastQueue] and to [#drainCallback]. *)
Lemma step_fastQueue q op :
  DeferQueue.fastQueue (step q op) =
    match op with
    | Push task => fst (Fastq.push task (DeferQueue.fastQueue q))
    | Unshift task => fst (Fastq.unshift task (DeferQueue.fastQueue q))
    | Pause => Fastq.pause (DeferQueue.fastQueue q)
    | Resume => fst (Fastq.resume (DeferQueue.fastQueue q))
    | Kill =>
        Fastq.set_drain (slot_of (DeferQueue.drainCallback q))
          (fst (Fastq.killAndDrain (DeferQueue.fastQueue q)))
    | SetDrained callback => Fastq.set_drain (Fastq.fn callback) (DeferQueue.fastQueue q)
    | Settle i =>
        match in_flight q !! i with
        | Some _ => fst (Fastq.release i (DeferQueue.fastQueue q))
        | None => DeferQueue.fastQueue q
        end
    | _ => DeferQueue.fastQueue q
    end /\
  DeferQueue.drainCallback (step q op) =
    match op with
    | SetDrained callback => Some callback
    | _ => DeferQueue.drainCallback q
    end.
Proof.
  destruct op as [task|task| | | | |f|h|h|h|i]; unfold step; try done.
  - unfold DeferQueue.push. cbn [snd]. rewrite on_fastQueue_unfold, call_hook_unfold. done.
  - unfold DeferQueue.unshift. cbn [snd]. rewrite on_fastQueue_unfold, call_hook_unfold. done.
  - by rewrite kill_unfold.
  - destruct (in_flight q !! i) as [cb|] eqn:Hi.
    + rewrite (settle_fastQueue i cb) by done. split; [done|].
      rewrite (settle_unfold i cb) by done.
      rewrite on_fastQueue_unfold, notifier_unfold.
      by destruct (head _).
    + unfold DeferQueue.settle. fold (in_flight q). by rewrite Hi.
Qed.

(** The executor starts tasks only into free slots, and as long as it is
    not paused it leaves no slot free while a task waits. *)
Lemma dispatch_slots {T} (fq : Fastq.queue T) :
  length (Fastq.running fq) <= Fastq.concurrency fq ->
  let fq' := fst (Fastq.dispatch fq) in
  length (Fastq.running fq') <= Fastq.concurrency fq' /\
  (Fastq.paused fq' = false ->
   Fastq.tasks fq' = [] \/ Fastq.concurrency fq' <= length (Fastq.running fq')).
Proof.
  unfold Fastq.dispatch. destruct fq as [ts rs [] c dr]; simpl; intros Hle; [done|].
  rewrite length_app, length_take. split; [lia|]. intros _.
  destruct (decide (length ts <= c - length rs)) as [Hfit|Hmore].
  - left. by apply drop_ge.
  - right. lia.
Qed.

Lemma step_concurrency q op :
  Fastq.concurrency (DeferQueue.fastQueue (step q op)) =
  Fastq.concurrency (DeferQueue.fastQueue q).
Proof.
  rewrite (proj1 (step_fastQueue q op)).
  destruct op as [task|task| | | | |f|h|h|h|i];
    try destruct (in_flight q !! i);
    unfold Fastq.push, Fastq.unshift, Fastq.resume; rewrite ?release_fst;
    rewrite ?(proj1 (proj2 (proj2 (proj2 (proj2 (dispatch_spec _)))))); done.
Qed.

Lemma slots_ok_step q op : slots_ok q -> slots_ok (step q op).
Proof.
  unfold slots_ok, pending, in_flight. intros [Hle Hfull].
  rewrite (proj1 (step_fastQueue q op)).
  destruct op as [task|task| | | | |f|h|h|h|i];
    [by apply dispatch_slots|by apply dispatch_slots|done|done|by apply dispatch_slots
    |split; [done|by left]|done|done|done|done|].
  fold (in_flight q). destruct (in_flight q !! i) as [cb|]; [|done].
  rewrite release_fst. apply dispatch_slots. cbn [Fastq.running Fastq.concurrency].
  pose proof (sublist_length _ _ (sublist_delete (Fastq.running (DeferQueue.fastQueue q)) i)).
  lia.
Qed.

Lemma slots_ok_run ops q : slots_ok q -> slots_ok (run ops q).
Proof.
  revert q. induction ops as [|op ops IH]; intros q H; [done|].
  apply IH. by apply slots_ok_step.
Qed.

Lemma run_concurrency ops q :
  Fastq.concurrency (DeferQueue.fastQueue (run ops q)) =
  Fastq.concurrency (DeferQueue.fastQueue q).
Proof.
  induction ops as [|op ops IH] using rev_ind; [done|].
  by rewrite run_snoc, step_concurrency.
Qed.

Lemma slots_ok_new self options : slots_ok (DeferQueue.new self options).
Proof. split; [simpl; lia|]. by left. Qed.

(** X6.  The concurrency of a queue is [options?.concurrency ?? 10] and
    no method changes it.  In every state a history leads to, no more
    tasks are in flight than that, and while the queue is not paused a
    task is pending only if that many are in flight. *)
Theorem concurrency_limit_respected
    (self : QueueRef) (options : option QueueOptions) (ops : list Op) :
  let q := run ops (DeferQueue.new self options) in
  let limit := default 10 (options ≫= concurrency) in
  Fastq.concurrency (DeferQueue.fastQueue q) = limit /\
  length (in_flight q) <= limit /\
  (Fastq.paused (DeferQueue.fastQueue q) = false ->
   0 < DeferQueue.size q -> length (in_flight q) = limit).
Proof.
  intros q limit.
  assert (Hc : Fastq.concurrency (DeferQueue.fastQueue q) = limit)
    by (unfold q; by rewrite run_concurrency).
  destruct (slots_ok_run ops _ (slots_ok_new self options)) as [Hle Hfull].
  fold q in Hle, Hfull. rewrite Hc in Hle, Hfull.
  split_and!; [done|done|].
  intros Hpaused Hsize. destruct (Hfull Hpaused) as [Hnone|Hall]; [|lia].
  unfold DeferQueue.size, Fastq.length in Hsize. unfold pending in Hnone.
  rewrite Hnone in Hsize. simpl in Hsize. lia.
Qed.

(** X6 with the default concurrency and twelve tasks on a running queue:
    ten are in flight and two pending. *)
Lemma concurrency_limit_respected_witness :
  let task := Callback "sendEmail" (Returns Js.undefined) in
  let q := run (replicate 12 (Push task)) (DeferQueue.new 0 None) in
  DeferQueue.size q = 2 /\ length (in_flight q) = 10.
Proof.
  intros task q. split; [reflexivity|].
  destruct (concurrency_limit_respected 0 None (replicate 12 (Push task)))
    as (_ & _ & Hfull).
  apply Hfull; [reflexivity|]. cbv. lia.
Defined.

Lemma resume_running q :
  slots_ok q -> Fastq.paused (DeferQueue.fastQueue q) = false -> DeferQueue.resume q = q.
Proof.
  unfold slots_ok, pending, in_flight, DeferQueue.resume. intros [Hle Hfull] Hpaused.
  rewrite on_fastQueue_unfold. unfold Fastq.resume, Fastq.dispatch.
  destruct q as [this drainCallback [ts rs p c dr] waiting h1 h2 h3 heap tr].
  cbn [DeferQueue.fastQueue Fastq.tasks Fastq.running Fastq.paused Fastq.concurrency
       Fastq.drain fst snd] in *.
  subst p.
  assert (take (c - length rs) ts = [] /\ drop (c - length rs) ts = ts) as [-> ->].
  { destruct (Hfull eq_refl) as [-> | Hall]; [by rewrite take_nil, drop_nil|].
    by replace (c - length rs) with 0 by lia. }
  unfold DeferQueue.log, DeferQueue.set_fastQueue. simpl. by rewrite !app_nil_r.
Qed.

(** X7.  [resume()] resumes a paused queue and nothing else: in every
    state a history leads to in which the queue is not paused, the call
    changes nothing -- no task is started, no hook is called, and the
    queue stays as it is. *)
Theorem resume_without_pause_changes_nothing
    (self : QueueRef) (options : option QueueOptions) (ops : list Op) :
  let q := run ops (DeferQueue.new self options) in
  Fastq.paused (DeferQueue.fastQueue q) = false ->
  DeferQueue.resume q = q.
Proof.
  intros q. apply resume_running, slots_ok_run, slots_ok_new.
Qed.

(** X7 on a queue with one slot, one task in flight and one pending. *)
Lemma resume_without_pause_changes_nothing_witness :
  let task := Callback "sendEmail" (Returns Js.undefined) in
  let q := run [Push task; Push task] (DeferQueue.new 0 (Some {| concurrency := Some 1 |})) in
  DeferQueue.size q = 1 /\ DeferQueue.resume q = q.
Proof.
  intros task q. split; [reflexivity|].
  exact (resume_without_pause_changes_nothing 0 (Some {| concurrency := Some 1 |})
           [Push task; Push task] eq_refl).
Defined.

(** ** The drain callback *)

Lemma step_drained q op callback :
  DeferQueue.drainCallback q = Some callback ->
  DeferQueue.drained q = Fastq.fn callback ->
  let callback' := match op with SetDrained assigned => assigned | _ => callback end in
  DeferQueue.drainCallback (step q op) = Some callback' /\
  DeferQueue.drained (step q op) = Fastq.fn callback'.
Proof.
  unfold DeferQueue.drained. intros Hc Hd.
  destruct (step_fastQueue q op) as [-> ->].
  destruct op as [task|task| | | | |f|h|h|h|i];
    try destruct (in_flight q !! i);
    rewrite ?drain_push, ?drain_unshift, ?drain_resume, ?drain_release, ?Hc; done.
Qed.

(** X8.  Reading [drained] gives back what was assigned to it: after
    [queue.drained = callback], in any state of the queue, and whatever
    happens next -- submissions, completions, pauses, kills -- the
    getter returns [callback], until another callback is assigned, and
    then that one. *)
Theorem drained_returns_callback_assigned_last
    (q : DeferQueue.t) (callback : FnRef) (ops : list Op) :
  DeferQueue.drained (run ops (DeferQueue.set_drained callback q)) =
  Fastq.fn (default callback (last_drained ops)).
Proof.
  assert (H : DeferQueue.drainCallback (run ops (DeferQueue.set_drained callback q)) =
                Some (default callback (last_drained ops)) /\
              DeferQueue.drained (run ops (DeferQueue.set_drained callback q)) =
                Fastq.fn (default callback (last_drained ops))); [|apply H].
  induction ops as [|op ops [IH1 IH2]] using rev_ind; [done|].
  rewrite run_snoc, last_drained_snoc.
  destruct (step_drained _ op _ IH1 IH2) as [H1 H2].
  rewrite H1, H2. by destruct op.
Qed.

(** ** A paused queue *)

Lemma dispatch_paused {T} (fq : Fastq.queue T) :
  Fastq.paused fq = true -> Fastq.dispatch fq = (fq, []).
Proof. unfold Fastq.dispatch. by intros ->. Qed.

Lemma step_paused q op :
  Fastq.paused (DeferQueue.fastQueue q) = true -> op <> Resume ->
  Fastq.paused (DeferQueue.fastQueue (step q op)) = true /\
  invocations (DeferQueue.trace (step q op)) = invocations (DeferQueue.trace q) /\
  in_flight (step q op) =
    match op with Settle i => delete i (in_flight q) | _ => in_flight q end.
Proof.
  intros Hpaused Hop.
  destruct (step_accounting q op) as (started & Hi & _ & _ & _ & Hr).
  assert (Hfq : Fastq.paused (DeferQueue.fastQueue (step q op)) = true /\
                in_flight (step q op) =
                  match op with Settle i => delete i (in_flight q) | _ => in_flight q end).
  { unfold in_flight at 1. rewrite (proj1 (step_fastQueue q op)).
    destruct op as [task|task| | | | |f|h|h|h|i]; try done.
    - unfold Fastq.push. by rewrite dispatch_paused.
    - unfold Fastq.unshift. by rewrite dispatch_paused.
    - destruct (in_flight q !! i) as [cb|] eqn:Hlook.
      + rewrite release_fst, dispatch_paused by done. done.
      + by rewrite (delete_absent _ _ Hlook). }
  destruct Hfq as [Hp Hr']. split; [done|].
  rewrite Hr' in Hr.
  assert (started = []) as ->.
  { apply (app_inv_head (match op with
                         | Settle i => delete i (in_flight q)
                         | _ => in_flight q
                         end)). by rewrite app_nil_r. }
  rewrite Hi. simpl. by rewrite app_nil_r.
Qed.

(** X9.  After [pause()], in any state of the queue, and as long as
    [resume()] is not called, the worker is handed no task, whatever
    else happens: submissions only queue up, a task that settles frees
    its slot without another one being started, and the queue stays
    paused. *)
Theorem paused_queue_starts_no_task (q : DeferQueue.t) (ops : list Op) :
  Resume ∉ ops ->
  let q' := run ops (DeferQueue.pause q) in
  invoked (DeferQueue.trace q') = invoked (DeferQueue.trace q) /\
  Fastq.paused (DeferQueue.fastQueue q') = true /\
  in_flight q' `sublist_of` in_flight q.
Proof.
  induction ops as [|op ops IH] using rev_ind; [done|].
  intros Hops. cbn zeta. rewrite run_snoc.
  destruct IH as (IH1 & IH2 & IH3).
  { intros Hin. apply Hops, elem_of_app. by left. }
  destruct (step_paused (run ops (DeferQueue.pause q)) op IH2) as (Hp & Hi & Hr).
  { intros ->. apply Hops, elem_of_app. right. by left. }
  unfold invoked in *. rewrite Hi, IH1, Hr. split_and!; try done.
  destruct op; try done.
  etrans; [apply sublist_delete|done].
Qed.

(** X9 on a queue with one task in flight: while paused, it settles and
    two more tasks are submitted; none of them is started. *)
Lemma paused_queue_starts_no_task_witness :
  let task := Callback "sendEmail" (Returns Js.undefined) in
  let q := run [Push task] (DeferQueue.new 0 None) in
  let q' := run [Push task; Settle 0; Unshift task] (DeferQueue.pause q) in
  invoked (DeferQueue.trace q') = [task] /\ DeferQueue.size q' = 2.
Proof.
  intros task q q'. split; [|reflexivity].
  apply (paused_queue_starts_no_task q [Push task; Settle 0; Unshift task]).
  intros Hin. repeat (apply elem_of_cons in Hin as [Hin|Hin]; [discriminate Hin|]).
  by apply elem_of_nil in Hin.
Defined.

(** ** The order of starts and completions *)

Lemma run_fifo ops q :
  forallb keeps_order ops = true ->
  invoked (DeferQueue.trace (run ops q)) ++ pending (run ops q) =
  invoked (DeferQueue.trace q) ++ pending q ++ submitted ops.
Proof.
  induction ops as [|op ops IH] using rev_ind.
  { intros _. simpl. by rewrite app_nil_r. }
  rewrite forallb_app. cbn [forallb]. rewrite andb_true_r.
  intros [Hops Hop]%andb_prop. rewrite run_snoc, submitted_snoc.
  destruct (step_accounting (run ops q) op) as (started & Hi & _ & _ & Hp & _).
  unfold invoked at 1. rewrite Hi, invoked_snoc_started, <- app_assoc.
  rewrite !app_assoc, <- (app_assoc _ (pending q)), <- (IH Hops), <- !app_assoc.
  f_equal.
  destruct op as [task|task| | | | |f|h|h|h|i]; rewrite ?app_nil_r; done.
Qed.

(** X10.  Tasks that are only pushed are started in the order of the
    calls: over any history without [unshift] and [kill], the tasks
    handed to the worker, in the order in which it got them, followed by
    the tasks still pending, are the tasks submitted, in the order of
    their submission; so the tasks started are always the first ones
    submitted. *)
Theorem pushed_tasks_start_in_order
    (self : QueueRef) (options : option QueueOptions) (ops : list Op) :
  forallb keeps_order ops = true ->
  let q := run ops (DeferQueue.new self options) in
  invoked (DeferQueue.trace q) ++ pending q = submitted ops /\
  invoked (DeferQueue.trace q) = take (length (invoked (DeferQueue.trace q))) (submitted ops).
Proof.
  intros Hops q.
  pose proof (run_fifo ops (DeferQueue.new self options) Hops) as H.
  fold q in H. simpl in H. split; [done|].
  by rewrite <- H, take_app_length.
Qed.

(** X10 with one slot: three pushes, the first task settles. *)
Lemma pushed_tasks_start_in_order_witness :
  let first := Callback "first" (Returns Js.undefined) in
  let second := Task "second" (Returns Js.undefined) in
  let third := Callback "third" (Throws Js.undefined) in
  let q := run [Push first; Push second; Push third; Settle 0]
             (DeferQueue.new 0 (Some {| concurrency := Some 1 |})) in
  invoked (DeferQueue.trace q) ++ pending q = [first; second; third] /\
  invoked (DeferQueue.trace q) = [first; second].
Proof.
  intros first second third q.
  exact (pushed_tasks_start_in_order 0 (Some {| concurrency := Some 1 |})
           [Push first; Push second; Push third; Settle 0] eq_refl).
Defined.

(** With a single slot, tasks complete in the order in which they were
    started. *)
Lemma serial_step q op :
  slots_ok q -> Fastq.concurrency (DeferQueue.fastQueue q) <= 1 ->
  completed (DeferQueue.trace q) ++ (DeferQueue.worker <$> in_flight q) =
    DeferQueue.worker <$> invoked (DeferQueue.trace q) ->
  completed (DeferQueue.trace (step q op)) ++ (DeferQueue.worker <$> in_flight (step q op)) =
    DeferQueue.worker <$> invoked (DeferQueue.trace (step q op)).
Proof.
  intros [Hle _] Hone Hq. fold (in_flight q) in Hle.
  destruct (step_accounting q op) as (started & Hi & Hc & _ & _ & Hr).
  unfold invoked at 1. rewrite Hi, Hc, Hr, invoked_snoc_started, !fmap_app, <- Hq.
  rewrite <- !app_assoc. f_equal.
  destruct op as [task|task| | | | |f|h|h|h|i]; try done.
  destruct (in_flight q) as [|cb [|cb' rest]] eqn:Hfl; simpl in Hle; [by destruct i| |lia].
  destruct i as [|i]; done.
Qed.

Lemma run_serial ops q :
  slots_ok q -> Fastq.concurrency (DeferQueue.fastQueue q) <= 1 ->
  completed (DeferQueue.trace q) ++ (DeferQueue.worker <$> in_flight q) =
    DeferQueue.worker <$> invoked (DeferQueue.trace q) ->
  completed (DeferQueue.trace (run ops q)) ++ (DeferQueue.worker <$> in_flight (run ops q)) =
    DeferQueue.worker <$> invoked (DeferQueue.trace (run ops q)).
Proof.
  revert q. induction ops as [|op ops IH]; intros q Hs Hone Hq; [done|].
  rewrite run_cons. apply IH.
  - by apply slots_ok_step.
  - by rewrite step_concurrency.
  - by apply serial_step.
Qed.

(** X11.  With a concurrency of 1, tasks that are only pushed complete
    in the order of the calls: over any history without [unshift] and
    [kill], the completions reported with [done], followed by what the
    worker reports for the task in flight and for the pending tasks, are
    what it reports for the tasks submitted, in the order of their
    submission. *)
Theorem single_slot_completes_in_order (self : QueueRef) (ops : list Op) :
  forallb keeps_order ops = true ->
  let q := run ops (DeferQueue.new self (Some {| concurrency := Some 1 |})) in
  completed (DeferQueue.trace q) ++ (DeferQueue.worker <$> (in_flight q ++ pending q)) =
    DeferQueue.worker <$> submitted ops /\
  completed (DeferQueue.trace q) =
    take (length (completed (DeferQueue.trace q))) (DeferQueue.worker <$> submitted ops).
Proof.
  intros Hops q.
  pose proof (run_fifo ops (DeferQueue.new self (Some {| concurrency := Some 1 |})) Hops) as Hf.
  pose proof (run_serial ops (DeferQueue.new self (Some {| concurrency := Some 1 |}))
                (slots_ok_new _ _)) as Hs.
  fold q in Hf, Hs. simpl in Hf.
  assert (H : completed (DeferQueue.trace q) ++ (DeferQueue.worker <$> (in_flight q ++ pending q)) =
              DeferQueue.worker <$> submitted ops).
  { rewrite fmap_app, app_assoc, Hs, <- fmap_app, Hf by (simpl; done || lia). done. }
  split; [done|]. by rewrite <- H, take_app_length.
Qed.

(** X11 on three pushed tasks, two of which have settled. *)
Lemma single_slot_completes_in_order_witness :
  let first := Callback "first" (Returns (Js.number 1)) in
  let second := Task "second" (Rejects (Js.Error "boom")) in
  let third := Callback "third" (Returns Js.undefined) in
  let q := run [Push first; Push second; Settle 0; Push third; Settle 0]
             (DeferQueue.new 0 (Some {| concurrency := Some 1 |})) in
  completed (DeferQueue.trace q) =
    [(Js.null, TaskResult.make "first" (Some (Js.number 1)));
     (Js.Error "boom", TaskResult.make "second" None)].
Proof.
  intros first second third q.
  exact (proj2 (single_slot_completes_in_order 0
                  [Push first; Push second; Settle 0; Push third; Settle 0] eq_refl)).
Defined.

(** ** Waiting for a task *)

(** The calls of the drain slot a step makes. *)
Lemma step_drains q op :
  drain_calls (DeferQueue.trace (step q op)) =
  drain_calls (DeferQueue.trace q) ++
    match op with
    | Kill => [DeferQueue.drained q]
    | Settle i =>
        match in_flight q !! i with
        | Some _ => if DeferQueue.isIdle (step q op) then [DeferQueue.drained q] else []
        | None => []
        end
    | _ => []
    end.
Proof.
  destruct (step_trace q op) as (started & -> & _ & _).
  rewrite drain_calls_app. f_equal. unfold drain_calls.
  destruct op as [task|task| | | | |f|h|h|h|i]; cbn [step_events]; try done.
  - rewrite omap_app, omap_runs by done. by destruct (DeferQueue.taskAdded q).
  - rewrite omap_app, omap_runs by done. by destruct (DeferQueue.taskAdded q).
  - by rewrite omap_runs.
  - destruct (in_flight q !! i) as [cb|]; [|done].
    rewrite !omap_app, omap_runs by done. unfold hook_call.
    destruct (DeferQueue.isIdle _), (head _), (Js.truthy _),
      (DeferQueue.onError q), (DeferQueue.taskCompleted q); done.
Qed.

Lemma awaited_spec task q :
  DeferQueue.isIdle q = true ->
  Fastq.paused (DeferQueue.fastQueue q) = false ->
  1 <= Fastq.concurrency (DeferQueue.fastQueue q) ->
  DeferQueue.notifiers q = [] ->
  let q' := run (awaited task) q in
  DeferQueue.deferreds q' =
    DeferQueue.deferreds q ++ [Deferred.Resolved (outcome (DeferQueue.worker task))] /\
  completed (DeferQueue.trace q') = completed (DeferQueue.trace q) ++ [DeferQueue.worker task] /\
  invoked (DeferQueue.trace q') = invoked (DeferQueue.trace q) ++ [task] /\
  DeferQueue.fastQueue q' = DeferQueue.fastQueue q /\
  DeferQueue.notifiers q' = [] /\
  drain_calls (DeferQueue.trace q') = drain_calls (DeferQueue.trace q) ++ [DeferQueue.drained q].
Proof.
  intros [Hpe Hfl]%isIdle_spec Hpaused Hc Hw q'.
  apply length_zero_iff_nil in Hpe, Hfl. unfold pending, in_flight in *.
  unfold q', awaited. rewrite !run_cons.
  set (q1 := step q CreateNotifier).
  assert (H1 : DeferQueue.fastQueue q1 = DeferQueue.fastQueue q /\
               DeferQueue.notifiers q1 = [length (DeferQueue.deferreds q)] /\
               DeferQueue.deferreds q1 = DeferQueue.deferreds q ++ [Deferred.Pending] /\
               DeferQueue.trace q1 = DeferQueue.trace q).
  { unfold q1, step, DeferQueue.createNotifier, Deferred.new. simpl. by rewrite Hw. }
  clearbody q1. destruct H1 as (Hfq1 & Hw1 & Hd1 & Htr1).
  set (q2 := step q1 (Push task)).
  assert (H2 : in_flight q2 = [task] /\ pending q2 = [] /\
               Fastq.paused (DeferQueue.fastQueue q2) = false /\
               Fastq.concurrency (DeferQueue.fastQueue q2) =
                 Fastq.concurrency (DeferQueue.fastQueue q) /\
               Fastq.drain (DeferQueue.fastQueue q2) = Fastq.drain (DeferQueue.fastQueue q) /\
               DeferQueue.notifiers q2 = [length (DeferQueue.deferreds q)] /\
               DeferQueue.deferreds q2 = DeferQueue.deferreds q ++ [Deferred.Pending] /\
               completed (DeferQueue.trace q2) = completed (DeferQueue.trace q) /\
               invoked (DeferQueue.trace q2) = invoked (DeferQueue.trace q) ++ [task]).
  { unfold q2, step, in_flight, pending.
    destruct (submit_spec DeferQueue.push _ task q1 (or_introl (conj eq_refl eq_refl)))
      as (_ & started & Ht & Hst & Hq).
    rewrite Hfq1, Hpaused, Hpe, Hfl in Hst. cbn [app length] in Hst.
    rewrite take_ge in Hst by (simpl; lia). subst started.
    rewrite Hfq1, Hpe in Ht. cbn [app] in Ht.
    assert (Hnone : Fastq.tasks (DeferQueue.fastQueue (snd (DeferQueue.push task q1))) = [])
      by (injection Ht as Ht; done).
    rewrite Hq, Hnone, Hfq1, Hfl, Hpaused, Hw1, Hd1, Htr1.
    cbn [DeferQueue.fastQueue DeferQueue.notifiers DeferQueue.deferreds DeferQueue.trace
         Fastq.running Fastq.tasks Fastq.paused Fastq.concurrency Fastq.drain app].
    unfold invoked. rewrite !completed_app, !invocations_app.
    assert (completed (option_list ((fun f => TaskAdded f task) <$> DeferQueue.taskAdded q1)) = [] /\
            invocations (option_list ((fun f => TaskAdded f task) <$> DeferQueue.taskAdded q1)) = [])
      as [-> ->] by (destruct (DeferQueue.taskAdded q1); done).
    cbn. rewrite app_nil_r, fmap_app. cbn. rewrite callee_worker_call. done. }
  assert (Hdrains2 : drain_calls (DeferQueue.trace q2) = drain_calls (DeferQueue.trace q)).
  { unfold q2. by rewrite step_drains, app_nil_r, Htr1. }
  clearbody q2. destruct H2 as (Hfl2 & Hpe2 & Hp2 & Hc2 & Hdr2 & Hw2 & Hd2 & Hco2 & Hin2).
  assert (Hlook : in_flight q2 !! 0 = Some task) by (by rewrite Hfl2).
  destruct (step_accounting q2 (Settle 0)) as (started & Hi & Hco & _ & Hp & Hr).
  destruct (step_waiting q2 (Settle 0)) as [Hw3 Hd3].
  pose proof (proj1 (step_fastQueue q2 (Settle 0))) as Hfq3.
  pose proof (step_drains q2 (Settle 0)) as Hdrains3.
  cbv beta iota in Hi, Hco, Hp, Hr, Hw3, Hd3, Hfq3, Hdrains3.
  change (run [] (step q2 (Settle 0))) with (step q2 (Settle 0)).
  remember (step q2 (Settle 0)) as q3 eqn:E. clear E.
  rewrite Hlook in Hdrains3.
  rewrite Hlook in Hco, Hw3, Hd3, Hfq3. rewrite Hw2 in Hw3, Hd3.
  rewrite Hpe2 in Hp. symmetry in Hp. apply app_eq_nil in Hp as [-> Hpe3].
  rewrite Hfl2 in Hr. cbn in Hr, Hco, Hw3, Hd3.
  split_and!.
  - rewrite Hd3, Hd2. unfold Deferred.resolve.
    rewrite list_lookup_middle by done.
    rewrite insert_app_r_alt, Nat.sub_diag by done. done.
  - by rewrite Hco, Hco2.
  - unfold invoked at 1. by rewrite Hi, invoked_snoc_started, Hin2, app_nil_r.
  - rewrite Hfq3, release_fst. unfold in_flight, pending in *.
    rewrite Hfl2, Hpe2, Hp2, Hc2, Hdr2. cbn.
    rewrite take_nil, drop_nil.
    destruct (DeferQueue.fastQueue q) as [ts rs p c dr]. simpl in *. by subst.
  - done.
  - rewrite Hdrains3, Hdrains2. unfold DeferQueue.drained. rewrite Hdr2.
    assert (DeferQueue.isIdle q3 = true) as ->; [|done].
    apply isIdle_spec. unfold pending, in_flight in *. by rewrite Hpe3, Hr.
Qed.

(** X12.  Waiting for tasks one after the other, as the tests do: on an
    idle queue that is not paused and has no notifier waiting, create a
    notifier, push a task and let it settle, for each task of a list in
    turn.  Then each notifier created is resolved with the outcome of
    the task pushed right after it -- the notifiers created, in order,
    hold the outcomes of the tasks, in order -- every task was invoked
    and has completed, the drain callback was called once after each
    task, no notifier is left waiting, and the queue is as idle as it
    was. *)
Theorem awaited_tasks_resolve_their_notifiers (q : DeferQueue.t) (tasks : list DeferCallback) :
  DeferQueue.isIdle q = true ->
  Fastq.paused (DeferQueue.fastQueue q) = false ->
  1 <= Fastq.concurrency (DeferQueue.fastQueue q) ->
  DeferQueue.notifiers q = [] ->
  let q' := run (tasks ≫= awaited) q in
  DeferQueue.deferreds q' =
    DeferQueue.deferreds q
      ++ ((fun task => Deferred.Resolved (outcome (DeferQueue.worker task))) <$> tasks) /\
  completed (DeferQueue.trace q') =
    completed (DeferQueue.trace q) ++ (DeferQueue.worker <$> tasks) /\
  invoked (DeferQueue.trace q') = invoked (DeferQueue.trace q) ++ tasks /\
  drain_calls (DeferQueue.trace q') =
    drain_calls (DeferQueue.trace q) ++ replicate (length tasks) (DeferQueue.drained q) /\
  DeferQueue.notifiers q' = [] /\
  DeferQueue.fastQueue q' = DeferQueue.fastQueue q /\
  DeferQueue.isIdle q' = true.
Proof.
  revert q. induction tasks as [|task tasks IH]; intros q Hidle Hpaused Hc Hw.
  { simpl. by rewrite !app_nil_r. }
  cbn zeta. rewrite bind_cons, run_app.
  destruct (awaited_spec task q Hidle Hpaused Hc Hw)
    as (Hd1 & Hco1 & Hin1 & Hfq1 & Hw1 & Hdr1).
  set (q1 := run (awaited task) q) in *. clearbody q1.
  destruct (IH q1) as (Hd & Hco & Hin & Hdr & Hw' & Hfq & Hidle').
  { unfold DeferQueue.isIdle in *. by rewrite Hfq1. }
  { by rewrite Hfq1. }
  { by rewrite Hfq1. }
  { done. }
  rewrite Hd, Hco, Hin, Hdr, Hd1, Hco1, Hin1, Hdr1, Hfq, Hfq1, <- !app_assoc.
  unfold DeferQueue.drained. rewrite Hfq1.
  split_and!; try done.
Qed.

(** X12 on a new queue with a drain callback and two tasks, the second
    of which fails. *)
Lemma awaited_tasks_resolve_their_notifiers_witness :
  let sendEmail := Callback "sendEmail" (Returns (Js.boolean true)) in
  let report := Task "report" (Throws (Js.Error "boom")) in
  let q := run [SetDrained 9] (DeferQueue.new 0 None) in
  let q' := run ([sendEmail; report] ≫= awaited) q in
  DeferQueue.deferreds q' =
    [Deferred.Resolved (fulfilled (TaskResult.make "sendEmail" (Some (Js.boolean true))));
     Deferred.Resolved (rejected (Js.Error "boom"))] /\
  drain_calls (DeferQueue.trace q') = [Fastq.fn 9; Fastq.fn 9] /\
  DeferQueue.isIdle q' = true.
Proof.
  intros sendEmail report q q'.
  destruct (awaited_tasks_resolve_their_notifiers q [sendEmail; report])
    as (Hd & _ & _ & Hdrains & _ & _ & Hidle);
    [reflexivity|reflexivity|simpl; lia|reflexivity|].
  split; [exact Hd|]. split; [exact Hdrains|exact Hidle].
Defined.

(** ** The two shapes of a task *)

Lemma worker_as_object cb : DeferQueue.worker (as_object cb) = DeferQueue.worker cb.
Proof. by destruct cb. Qed.

Lemma runs_as_object (started : list DeferCallback) :
  (fun cb => Invoke (DeferQueue.worker_call cb)) <$> (as_object <$> started) =
  event_as_object <$> ((fun cb => Invoke (DeferQueue.worker_call cb)) <$> started).
Proof.
  rewrite <- !list_fmap_compose. apply list_fmap_ext. intros _ cb _. simpl.
  by rewrite callee_worker_call.
Qed.

Lemma dispatch_as_object fq :
  fst (Fastq.dispatch (executor_as_object fq)) = executor_as_object (fst (Fastq.dispatch fq)).
Proof.
  unfold Fastq.dispatch, executor_as_object. destruct fq as [ts rs [] c dr]; simpl; [done|].
  by rewrite length_fmap, fmap_app, fmap_take, fmap_drop.
Qed.

Lemma idle_as_object fq : Fastq.idle (executor_as_object fq) = Fastq.idle fq.
Proof. unfold Fastq.idle. by destruct fq as [[|t ts] [|r rs] p c dr]. Qed.

Lemma state_ext (q1 q2 : DeferQueue.t) :
  DeferQueue.this q1 = DeferQueue.this q2 ->
  DeferQueue.drainCallback q1 = DeferQueue.drainCallback q2 ->
  DeferQueue.fastQueue q1 = DeferQueue.fastQueue q2 ->
  DeferQueue.notifiers q1 = DeferQueue.notifiers q2 ->
  DeferQueue.onError q1 = DeferQueue.onError q2 ->
  DeferQueue.taskCompleted q1 = DeferQueue.taskCompleted q2 ->
  DeferQueue.taskAdded q1 = DeferQueue.taskAdded q2 ->
  DeferQueue.deferreds q1 = DeferQueue.deferreds q2 ->
  DeferQueue.trace q1 = DeferQueue.trace q2 ->
  q1 = q2.
Proof. destruct q1, q2. simpl. by intros -> -> -> -> -> -> -> -> ->. Qed.

(** No step changes the reference of the queue to itself. *)
Lemma step_this q op : DeferQueue.this (step q op) = DeferQueue.this q.
Proof.
  destruct op as [task|task| | | | |f|h|h|h|i]; unfold step;
    [destruct (submit_spec DeferQueue.push _ task q (or_introl (conj eq_refl eq_refl)))
       as (_ & started & _ & _ & ->); done
    |destruct (submit_spec DeferQueue.unshift _ task q (or_intror (conj eq_refl eq_refl)))
       as (_ & started & _ & _ & ->); done
    |done|done
    |unfold DeferQueue.resume; by rewrite on_fastQueue_unfold
    |by rewrite kill_unfold
    |done|done|done|done|].
  unfold DeferQueue.settle.
  destruct (_ !! i) as [cb|]; [|done].
  destruct (DeferQueue.worker cb) as [error taskResult].
  rewrite on_fastQueue_unfold, notifier_unfold.
  by destruct (head _).
Qed.

Lemma step_fastQueue_as_object q op :
  DeferQueue.fastQueue (step (state_as_object q) (op_as_object op)) =
  executor_as_object (DeferQueue.fastQueue (step q op)).
Proof.
  rewrite (proj1 (step_fastQueue q op)), (proj1 (step_fastQueue _ _)).
  unfold in_flight.
  cbn [state_as_object DeferQueue.fastQueue DeferQueue.drainCallback].
  destruct op as [task|task| | | | |f|h|h|h|i]; cbn [op_as_object]; try done.
  - unfold Fastq.push. rewrite <- dispatch_as_object. f_equal.
    unfold executor_as_object. cbn. by rewrite fmap_app.
  - unfold Fastq.unshift. by rewrite <- dispatch_as_object.
  - unfold Fastq.resume. by rewrite <- dispatch_as_object.
  - cbn [executor_as_object Fastq.running]. rewrite list_lookup_fmap.
    destruct (Fastq.running (DeferQueue.fastQueue q) !! i); [|done].
    cbn [fmap option_fmap option_map]. rewrite !release_fst, <- dispatch_as_object.
    f_equal. unfold executor_as_object. cbn. by rewrite list_fmap_delete.
Qed.

Lemma step_events_as_object q op started :
  step_events (state_as_object q) (op_as_object op) (as_object <$> started) =
  event_as_object <$> step_events q op started.
Proof.
  pose proof (step_fastQueue_as_object q op) as Hfq.
  destruct op as [task|task| | | | |f|h|h|h|i]; cbn [op_as_object step_events] in *;
    try done.
  - rewrite fmap_app, runs_as_object. cbn [state_as_object DeferQueue.taskAdded].
    by destruct (DeferQueue.taskAdded q).
  - rewrite fmap_app, runs_as_object. cbn [state_as_object DeferQueue.taskAdded].
    by destruct (DeferQueue.taskAdded q).
  - apply runs_as_object.
  - unfold in_flight. cbn [state_as_object DeferQueue.fastQueue executor_as_object Fastq.running].
    rewrite list_lookup_fmap.
    destruct (Fastq.running (DeferQueue.fastQueue q) !! i) as [cb|]; [|done].
    cbn [fmap option_fmap option_map]. rewrite worker_as_object.
    unfold DeferQueue.isIdle. rewrite Hfq, idle_as_object.
    rewrite !fmap_app, runs_as_object.
    unfold hook_call, DeferQueue.drained.
    cbn [state_as_object DeferQueue.fastQueue executor_as_object Fastq.drain
         DeferQueue.onError DeferQueue.taskCompleted DeferQueue.notifiers].
    destruct (Js.truthy _), (DeferQueue.onError q), (DeferQueue.taskCompleted q),
      (head (DeferQueue.notifiers q)), (Fastq.idle _); done.
Qed.

Lemma step_as_object q op :
  step (state_as_object q) (op_as_object op) = state_as_object (step q op).
Proof.
  pose proof (step_fastQueue_as_object q op) as Hfq.
  apply state_ext; cbn [state_as_object DeferQueue.this DeferQueue.drainCallback
    DeferQueue.fastQueue DeferQueue.notifiers DeferQueue.onError DeferQueue.taskCompleted
    DeferQueue.taskAdded DeferQueue.deferreds DeferQueue.trace].
  - by rewrite !step_this.
  - rewrite (proj2 (step_fastQueue q op)), (proj2 (step_fastQueue _ _)). by destruct op.
  - exact Hfq.
  - rewrite (proj1 (step_waiting q op)), (proj1 (step_waiting _ _)).
    destruct op as [task|task| | | | |f|h|h|h|i]; try done.
    cbn [op_as_object]. unfold in_flight.
    cbn [state_as_object DeferQueue.fastQueue executor_as_object Fastq.running
         DeferQueue.notifiers].
    rewrite list_lookup_fmap. by destruct (_ !! i).
  - rewrite (proj1 (proj2 (step_hooks q op))), (proj1 (proj2 (step_hooks _ _))).
    by destruct op.
  - rewrite (proj2 (proj2 (step_hooks q op))), (proj2 (proj2 (step_hooks _ _))).
    by destruct op.
  - rewrite (proj1 (step_hooks q op)), (proj1 (step_hooks _ _)). by destruct op.
  - rewrite (proj2 (step_waiting q op)), (proj2 (step_waiting _ _)).
    destruct op as [task|task| | | | |f|h|h|h|i]; try done.
    cbn [op_as_object]. unfold in_flight.
    cbn [state_as_object DeferQueue.fastQueue executor_as_object Fastq.running
         DeferQueue.notifiers DeferQueue.deferreds].
    rewrite list_lookup_fmap. destruct (_ !! i) as [cb|]; [|done].
    cbn [fmap option_fmap option_map]. by rewrite worker_as_object.
  - destruct (step_trace q op) as (started & Htr & _ & Hr).
    destruct (step_trace (state_as_object q) (op_as_object op)) as (started' & Htr' & _ & Hr').
    assert (started' = as_object <$> started) as ->.
    { unfold in_flight in Hr, Hr'. rewrite Hfq in Hr'.
      cbn [executor_as_object Fastq.running] in Hr'. rewrite Hr, fmap_app in Hr'.
      cbn [state_as_object DeferQueue.fastQueue executor_as_object Fastq.running] in Hr'.
      symmetry. revert Hr'.
      destruct op as [task|task| | | | |f|h|h|h|i]; cbn [op_as_object];
        rewrite ?list_fmap_delete; apply app_inv_head. }
    rewrite Htr', Htr, fmap_app, step_events_as_object. done.
Qed.

Lemma run_as_object ops q :
  run (op_as_object <$> ops) (state_as_object q) = state_as_object (run ops q).
Proof.
  revert q. induction ops as [|op ops IH]; intros q; [done|].
  rewrite fmap_cons, !run_cons, step_as_object. apply IH.
Qed.

Lemma observed_as_object tr :
  completed (event_as_object <$> tr) = completed tr /\
  outcome_hook_calls (event_as_object <$> tr) = outcome_hook_calls tr /\
  resolve_calls (event_as_object <$> tr) = resolve_calls tr.
Proof.
  unfold completed, outcome_hook_calls, resolve_calls.
  induction tr as [|e tr (IH1 & IH2 & IH3)]; [done|].
  rewrite fmap_cons. cbn [omap list_omap]. rewrite IH1, IH2, IH3.
  by destruct e.
Qed.

(** X13.  The shape of a task makes no difference to what the queue does
    with it.  Run a history from any state, and run it again with
    every function task [f] replaced by the object
    [{ name: f.name, run: f }], in the state and in the history: the two
    runs go through the same states, but for the shape of the tasks held
    and for the call expression the worker evaluates ([cb.run()] for
    [cb()]).  In particular the completions reported with [done], the
    calls of [onError] and [taskCompleted], the calls of [resolve] and
    the notifiers are the same, and so are [size()] and [isIdle()]. *)
Theorem task_shape_makes_no_difference (q : DeferQueue.t) (ops : list Op) :
  let q1 := run ops q in
  let q2 := run (op_as_object <$> ops) (state_as_object q) in
  q2 = state_as_object q1 /\
  completed (DeferQueue.trace q2) = completed (DeferQueue.trace q1) /\
  outcome_hook_calls (DeferQueue.trace q2) = outcome_hook_calls (DeferQueue.trace q1) /\
  resolve_calls (DeferQueue.trace q2) = resolve_calls (DeferQueue.trace q1) /\
  DeferQueue.deferreds q2 = DeferQueue.deferreds q1 /\
  DeferQueue.notifiers q2 = DeferQueue.notifiers q1 /\
  DeferQueue.size q2 = DeferQueue.size q1 /\
  DeferQueue.isIdle q2 = DeferQueue.isIdle q1.
Proof.
  intros q1 q2. unfold q2, q1. rewrite run_as_object.
  destruct (observed_as_object (DeferQueue.trace (run ops q))) as (H1 & H2 & H3).
  split_and!; try done.
  - unfold DeferQueue.size, Fastq.length. simpl. by rewrite length_fmap.
  - unfold DeferQueue.isIdle. apply idle_as_object.
Qed.

(** ** The success path *)



(** ** Settled notifiers *)

Lemma step_settled q op d (deferred : Deferred.t) :
  DeferQueue.deferreds q !! d = Some deferred -> deferred <> Deferred.Pending ->
  DeferQueue.deferreds (step q op) !! d = Some deferred.
Proof.
  intros Hd Hsettled. rewrite (proj2 (step_waiting q op)).
  destruct op as [task|task| | | | |f|h|h|h|i]; try done.
  - by apply lookup_app_l_Some.
  - destruct (in_flight q !! i) as [cb|]; [|done].
    destruct (head (DeferQueue.notifiers q)) as [d'|]; [|done].
    unfold Deferred.resolve.
    destruct (DeferQueue.deferreds q !! d') as [[]|] eqn:Hd'; try done.
    rewrite list_lookup_insert_ne; [done|].
    intros ->. apply Hsettled.
    pose proof (eq_trans (eq_sym Hd) Hd') as E. by injection E.
Qed.

(** X15.  What a notifier was settled with is final: from any state of
    the queue, a notifier that is no longer pending holds the same
    result after any history -- no later completion, kill or
    [createNotifier] touches it -- and the notifiers created are never
    forgotten. *)
Theorem settled_notifier_never_changes
    (q : DeferQueue.t) (ops : list Op) (d : DeferredRef) (deferred : Deferred.t) :
  DeferQueue.deferreds q !! d = Some deferred ->
  deferred <> Deferred.Pending ->
  DeferQueue.deferreds (run ops q) !! d = Some deferred /\
  length (DeferQueue.deferreds q) <= length (DeferQueue.deferreds (run ops q)).
Proof.
  intros Hd Hsettled. split.
  - revert q Hd. induction ops as [|op ops IH]; intros q Hd; [done|].
    rewrite run_cons. apply IH. by apply step_settled.
  - clear Hd. induction ops as [|op ops IH] using rev_ind; [done|].
    rewrite run_snoc, (proj2 (step_waiting _ op)).
    etrans; [exact IH|].
    destruct op as [task|task| | | | |f|h|h|h|i]; try done.
    + rewrite length_app. lia.
    + destruct (in_flight _ !! i) as [cb|]; [|done].
      destruct (head _) as [d'|]; [|done].
      unfold Deferred.resolve.
      destruct (_ !! d') as [[]|]; by rewrite ?length_insert.
Qed.

(** X15 on the notifier of a task that has completed, after two more
    tasks have completed and the queue was killed. *)
Lemma settled_notifier_never_changes_witness :
  let task := Callback "sendEmail" (Returns (Js.number 1)) in
  let other := Task "report" (Throws (Js.Error "boom")) in
  let q := run (awaited task) (DeferQueue.new 0 None) in
  DeferQueue.deferreds (run [Push other; CreateNotifier; Settle 0; Kill; Push other; Settle 0] q)
    !! 0 = Some (Deferred.Resolved (fulfilled (TaskResult.make "sendEmail" (Some (Js.number 1))))).
Proof.
  intros task other q.
  apply (settled_notifier_never_changes q
           [Push other; CreateNotifier; Settle 0; Kill; Push other; Settle 0] 0);
    [reflexivity|discriminate].
Defined.

(** ** No task is left behind *)

Lemma submitted_settling ops n :
  submitted (ops ++ Resume :: (Settle <$> replicate n 0)) = submitted ops.
Proof.
  unfold submitted. rewrite omap_app. cbn [omap list_omap].
  assert (omap (fun op => match op with
                          | Push task | Unshift task => Some task
                          | _ => None
                          end) (Settle <$> replicate n 0) = []) as ->
    by (induction n; done).
  apply app_nil_r.
Qed.

(** X16.  No task is left behind.  Take any state a history leads to, on
    a queue with a concurrency of at least 1; call [resume()] and let the
    task in the first slot settle as many times as there are tasks in
    flight or pending.  Then the queue is idle, and every task that was
    ever submitted has completed exactly once or was discarded by a
    kill: the completions reported with [done], together with what the
    worker would report for the discarded tasks, are, up to their order,
    what it reports for the tasks submitted. *)
Theorem every_task_completes_or_is_discarded
    (self : QueueRef) (options : option QueueOptions) (ops : list Op) :
  1 <= default 10 (options ≫= concurrency) ->
  let q := run ops (DeferQueue.new self options) in
  let n := length (in_flight q) + length (pending q) in
  let q' := run (Resume :: (Settle <$> replicate n 0)) q in
  DeferQueue.isIdle q' = true /\
  DeferQueue.size q' = 0 /\
  DeferQueue.worker <$> submitted ops ≡ₚ
    completed (DeferQueue.trace q') ++ (DeferQueue.worker <$> discarded (DeferQueue.trace q')).
Proof.
  intros Hc q n q'.
  assert (Hconc : Fastq.concurrency (DeferQueue.fastQueue q) = default 10 (options ≫= concurrency))
    by (unfold q; by rewrite run_concurrency).
  destruct (resume_spec q) as (Ht & Hr & Hp & Hcc & _).
  assert (Hslots : slots_ok (DeferQueue.resume q)).
  { apply (slots_ok_step q Resume), slots_ok_run, slots_ok_new. }
  assert (Hdone : in_flight q' = [] /\ pending q' = []).
  { unfold q'. rewrite run_cons. change (step q Resume) with (DeferQueue.resume q).
    apply run_settle_first.
    - done.
    - by rewrite Hcc, Hconc.
    - intros Hnone. destruct Hslots as [_ Hfull].
      destruct (Hfull Hp) as [Hpe|Hall]; [done|].
      rewrite Hnone, Hcc, Hconc in Hall. simpl in Hall. lia.
    - unfold n. rewrite Hr, length_app.
      pose proof (f_equal length Ht) as Hlen. rewrite length_app in Hlen. lia. }
  destruct Hdone as [Hfl Hpe].
  destruct (run_accounting_tasks self options (ops ++ Resume :: (Settle <$> replicate n 0)))
    as [H1 H2].
  rewrite run_app in H1, H2. rewrite submitted_settling in H1.
  fold q in H1, H2. fold q' in H1, H2.
  rewrite Hpe in H1. rewrite Hfl in H2. cbn [app fmap list_fmap] in H1, H2.
  rewrite app_nil_r in H2.
  split_and!.
  - apply isIdle_spec. by rewrite Hfl, Hpe.
  - unfold DeferQueue.size, Fastq.length. unfold pending in Hpe. by rewrite Hpe.
  - by rewrite H1, fmap_app, H2.
Qed.

(** X16 on a queue with one slot that was paused, got three tasks and
    was killed while the first was in flight and a fourth was pushed. *)
Lemma every_task_completes_or_is_discarded_witness :
  let first := Callback "first" (Returns (Js.number 1)) in
  let second := Task "second" (Returns (Js.number 2)) in
  let third := Callback "third" (Throws (Js.Error "boom")) in
  let q := run [Push first; Pause; Push second; Kill; Push third]
             (DeferQueue.new 0 (Some {| concurrency := Some 1 |})) in
  let q' := run [Resume; Settle 0; Settle 0] q in
  DeferQueue.isIdle q' = true /\
  completed (DeferQueue.trace q') =
    [(Js.null, TaskResult.make "first" (Some (Js.number 1)));
     (Js.Error "boom", TaskResult.make "third" None)] /\
  discarded (DeferQueue.trace q') = [second].
Proof.
  intros first second third q q'.
  destruct (every_task_completes_or_is_discarded 0 (Some {| concurrency := Some 1 |})
              [Push first; Pause; Push second; Kill; Push third])
    as (Hidle & _ & _); [simpl; lia|].
  split; [exact Hidle|]. split; reflexivity.
Defined.

(** ** Assigning hooks *)


